(** * bipy.core.workflow: runtime-determined workflows over independent items

    A shallow embedding of [bipy/core/workflow.py] (Python 2) together with
    the properties its specification states about it.

    Conventions of the embedding:
    - an instance is the record of its attributes; a method takes the
      instance and returns the instance it leaves, inside [Result] when it
      can raise;
    - the functions a user supplies (the functions under the decorators,
      [initialize_state], [valid_data], the callbacks) are total; the first
      two may change any attribute, [valid_data] reads [state] and the
      callbacks read the instance;
    - option values are the hashable scalars [None], [bool], [int], [str];
      option names are strings;
    - an iterator is a state with its [next], so a stream may be endless;
      the generator [__call__] returns is advanced one stretch at a time
      (plan resolution, then one item per stretch).

    Layout: the Python prelude (exceptions, values, containment), the
    decorators [priority], [no_requirements] and [requires], the [Workflow]
    class ([__init__], [_setup_debug], [_all_wf_methods], [_get_workflow],
    [__call__]), the vocabulary of the properties and sample workflows,
    then the properties. *)

From Stdlib Require Import ZArith String Ascii List Bool Lia.
From Stdlib Require Import Sorting.Sorted Sorting.Permutation.
From Stdlib Require Import Structures.OrderedTypeEx.
From stdpp Require Import base option list gmap strings sorting.

Local Open Scope string_scope.
Local Open Scope list_scope.
Local Open Scope Z_scope.

(* ===================================================================== *)
(** ** Python prelude *)
(* ===================================================================== *)

(** The exceptions the module can raise: [it.next()] on an exhausted
    iterator ([StopIteration]), a failed containment test ([TypeError]) and
    the explicit [raise AttributeError] of [_debug_trace_wrapper]. *)
Inductive exn : Set := StopIteration | TypeError | AttributeError.

Inductive Result (A : Type) : Type :=
| Ok (a : A)
| Raise (e : exn).
Arguments Ok {A} a.
Arguments Raise {A} e.

Definition bind {A B : Type} (k : A -> Result B) (r : Result A) : Result B :=
  match r with
  | Ok a => k a
  | Raise e => Raise e
  end.

(** stdpp's monad notations: [x ← r; k] and ['(x, y) ← r; k]. *)
#[global] Instance Result_bind : MBind Result := @bind.
#[global] Instance Result_ret : MRet Result := @Ok.

(** Option values and set members: the hashable scalars of Python 2. *)
Inductive Value : Set :=
| VNone
| VBool (b : bool)
| VInt (n : Z)
| VStr (s : string).

(** [bool] is a subclass of [int]: [True == 1] and [False == 0]. *)
Definition int_value (v : Value) : option Z :=
  match v with
  | VBool b => Some (if b then 1 else 0)
  | VInt n => Some n
  | _ => None
  end.

(** [a == b] *)
Definition py_eq (a b : Value) : bool :=
  match a, b with
  | VNone, VNone => true
  | VStr s, VStr t => String.eqb s t
  | _, _ =>
      match int_value a, int_value b with
      | Some m, Some n => Z.eqb m n
      | _, _ => false
      end
  end.

(** [v is None] *)
Definition is_None (v : Value) : bool :=
  match v with VNone => true | _ => false end.

(** [t in s] for two [str]: [str.__contains__] is substring search. *)
Fixpoint str_contains (t s : string) : bool :=
  String.prefix t s
  || match s with
     | EmptyString => false
     | String _ s' => str_contains t s'
     end.

(** [v in l] for a [set] (or any container comparing with [==]). *)
Definition set_contains (v : Value) (l : list Value) : bool :=
  existsb (py_eq v) l.

(* ===================================================================== *)
(** ** The sentinels and [requires.__init__] *)
(* ===================================================================== *)

(** What [self.values] can hold after [requires.__init__]:
    - [anything], the [Exists] instance whose [__contains__] is always true;
    - [not_none], a bare [object()];
    - a [str], kept as it is;
    - a [set]. *)
Inductive Values : Set :=
| anything
| not_none
| values_str (s : string)
| values_set (l : list Value).

(** What a caller can pass as [values=]. *)
Inductive ValuesArg : Set :=
| arg_anything
| arg_not_none
| arg_set (l : list Value)        (* isinstance(values, set) *)
| arg_iterable (l : list Value)   (* a list, tuple, ... of values *)
| arg_scalar (v : Value).         (* a single value; a str when [VStr] *)

Definition init_values (a : ValuesArg) : Values :=
  match a with
  | arg_anything => anything
  | arg_not_none => not_none
  | arg_set l => values_set l
  | arg_scalar (VStr s) => values_str s
  | arg_iterable l => values_set l
  | arg_scalar v => values_set [v]
  end.

(** [v in self.values].  A bare [object()] has neither [__contains__] nor
    [__iter__], and a [str] accepts only a [str] on the left: both raise
    [TypeError]. *)
Definition contains (v : Value) (vs : Values) : Result bool :=
  match vs with
  | anything => Ok true
  | not_none => Raise TypeError
  | values_str s =>
      match v with
      | VStr t => Ok (str_contains t s)
      | _ => Raise TypeError
      end
  | values_set l => Ok (set_contains v l)
  end.

(** [self.values is not_none] *)
Definition is_not_none (vs : Values) : bool :=
  match vs with not_none => true | _ => false end.

(** The tag a decorated method returns: [_executed] when the wrapped
    function was called, [None] otherwise. *)
Inductive Ret : Set := _executed | returned_None.

Definition is_executed (r : Ret) : bool :=
  match r with _executed => true | returned_None => false end.

Section Workflow.

(** The items of the input stream and the user-defined payload kept in
    [self.state]; callbacks return Python objects, here of type [State]. *)
Context {Item State : Type}.

(* ===================================================================== *)
(** ** The instance attributes of a [Workflow] *)
(* ===================================================================== *)

(** [stats] is a [defaultdict(int)].  [debug_trace] is an attribute that
    exists only once [__init__] (under [debug]) or [_setup_debug_trace] has
    assigned it: [None] is "no such attribute". *)
Record Workflow : Type := mkWorkflow {
  state : State;
  failed : bool;
  short_circuit : bool;
  options : gmap string Value;
  stats : gmap string Z;
  debug : bool;
  debug_trace : option (list string)
}.

Definition set_failed (b : bool) (w : Workflow) : Workflow :=
  mkWorkflow (state w) b (short_circuit w) (options w) (stats w)
             (debug w) (debug_trace w).

Definition set_short_circuit (b : bool) (w : Workflow) : Workflow :=
  mkWorkflow (state w) (failed w) b (options w) (stats w)
             (debug w) (debug_trace w).

Definition set_stats (st : gmap string Z) (w : Workflow) : Workflow :=
  mkWorkflow (state w) (failed w) (short_circuit w) (options w) st
             (debug w) (debug_trace w).

Definition set_debug_trace (t : option (list string)) (w : Workflow)
  : Workflow :=
  mkWorkflow (state w) (failed w) (short_circuit w) (options w) (stats w)
             (debug w) t.

(* ===================================================================== *)
(** ** Decorators *)
(* ===================================================================== *)

(** The attributes of a [requires] object after [__init__]. *)
Record requires : Type := mkRequires {
  valid_state : bool;
  req_option : option string;           (* [self.option] *)
  values : Values;
  valid_data : option (State -> bool)
}.

(** [requires(valid_state, option, values, valid_data)] *)
Definition requires_init (valid_state : bool) (opt : option string)
    (vals : ValuesArg) (valid_data : option (State -> bool)) : requires :=
  mkRequires valid_state opt (init_values vals) valid_data.

Definition do_short_circuit (r : requires) (wrapped : Workflow) : bool :=
  valid_state r && (failed wrapped && short_circuit wrapped).

(** [no_requirements(f)]: "Simply execute the function". *)
Definition no_requirements_decorated (f : Workflow -> Workflow)
    (self : Workflow) : Result (Ret * Workflow) :=
  Ok (_executed, f self).

(** [requires.__call__(f)]: the function [decorated]. A bare [return], or
    falling off the end, returns [None] and leaves [dec_self] as it is. *)
Definition requires_decorated (r : requires) (f : Workflow -> Workflow)
    (dec_self : Workflow) : Result (Ret * Workflow) :=
  if do_short_circuit r dec_self then Ok (returned_None, dec_self)
  else if match valid_data r with
          | Some p => negb (p (state dec_self))
          | None => false
          end
  then Ok (returned_None, dec_self)
  else
    let ds_opts := options dec_self in
    match req_option r with
    | None => Ok (_executed, f dec_self)
    | Some s_opt =>
        match ds_opts !! s_opt with
        | Some v =>
            if is_not_none (values r) && negb (is_None v)
            then Ok (_executed, f dec_self)
            else
              b ← contains v (values r);
              if b : bool then Ok (_executed, f dec_self)
              else Ok (returned_None, dec_self)
        | None => Ok (returned_None, dec_self)
        end
    end.

(** Every workflow method is "decorated by either [no_requirements] or
    [requires]". *)
Inductive Decorator : Type :=
| no_requirements
| with_requires (r : requires).

(** A workflow method as the class body defines it: its [__name__], the
    attribute set by [@priority] when that decorator is present, its
    requirement decorator and the function it wraps. *)
Record Step : Type := mkStep {
  name : string;
  priority : option Z;
  decorator : Decorator;
  body : Workflow -> Workflow
}.

(** Calling the decorated function of a step. *)
Definition decorated (s : Step) (self : Workflow) : Result (Ret * Workflow) :=
  match decorator s with
  | no_requirements => no_requirements_decorated (body s) self
  | with_requires r => requires_decorated r (body s) self
  end.

(* ===================================================================== *)
(** ** Debug tracing *)
(* ===================================================================== *)

(** [_debug_trace_wrapper(obj, f).wrapped], up to the call of [f]. *)
Definition _debug_trace_wrapper (f_name : string) (obj : Workflow)
  : Result Workflow :=
  match debug_trace obj with
  | None => Raise AttributeError
  | Some t => Ok (set_debug_trace (Some (t ++ [f_name])) obj)
  end.

Definition _setup_debug_trace (self : Workflow) : Workflow :=
  set_debug_trace (Some []) self.

(** The callables that can sit in the executed list: a bound workflow
    method as the class defines it, the wrapper [_setup_debug] has put over
    it on the instance, and [self._setup_debug_trace]. *)
Inductive Method : Type :=
| bound_method (s : Step)
| traced_method (s : Step)
| setup_debug_trace_method.

(** [f()] *)
Definition call (f : Method) (self : Workflow) : Result (Ret * Workflow) :=
  match f with
  | bound_method s => decorated s self
  | traced_method s =>
      self' ← _debug_trace_wrapper (name s) self;
      decorated s self'
  | setup_debug_trace_method => Ok (returned_None, _setup_debug_trace self)
  end.

Definition method_step (f : Method) : option Step :=
  match f with
  | bound_method s | traced_method s => Some s
  | setup_debug_trace_method => None
  end.

(** The workflow methods among a list of callables. *)
Definition steps_of (fs : list Method) : list Step :=
  omap method_step fs.

(* ===================================================================== *)
(** ** The class namespace and [dir] *)
(* ===================================================================== *)

(** A class body is a sequence of method definitions.  Executing it binds
    each name in the class dictionary, a later [def] replacing an earlier
    one of the same name; [dir(self)] lists the names sorted.  The
    namespace is kept here as the list of the bound methods in [dir]
    order. *)
Fixpoint bind_name (s : Step) (ns : list Step) : list Step :=
  match ns with
  | [] => [s]
  | t :: ns' =>
      match String.compare (name s) (name t) with
      | Lt => s :: t :: ns'
      | Eq => s :: ns'
      | Gt => t :: bind_name s ns'
      end
  end.

Definition class_dir (class_body : list Step) : list Step :=
  fold_left (fun ns s => bind_name s ns) class_body [].

(** [f.startswith('wf_')] *)
Definition startswith_wf (s : Step) : bool := String.prefix "wf_" (name s).

(* ===================================================================== *)
(** ** [Workflow] *)
(* ===================================================================== *)

(** The two methods a subclass must implement. *)
Context (_allocate_state : State).
Context (initialize_state : Item -> Workflow -> Workflow).

(** [Workflow.__init__(short_circuit, debug, options)] followed by
    [_allocate_state]; extra keyword arguments are left out. *)
Definition __init__ (short_circuit debug : bool)
    (options : option (gmap string Value)) : Workflow :=
  mkWorkflow _allocate_state false short_circuit
             (match options with Some o => o | None => ∅ end)
             ∅ debug (if debug then Some [] else None).

(** [getattr(self, f)] for a workflow method, after [_setup_debug]: when
    the instance was built with [debug], every method of the subclass has
    been replaced on the instance by its trace wrapper. *)
Definition getattr_wf (traced : bool) (s : Step) : Method :=
  if traced then traced_method s else bound_method s.

(** [key = lambda x: getattr(x, 'priority', default_priority)]; the
    wrappers carry the attributes of what they wrap ([update_wrapper]). *)
Definition default_priority : Z := 0.

Definition step_priority (s : Step) : Z :=
  match priority s with Some p => p | None => default_priority end.

Definition key (x : Method) : Z :=
  match method_step x with
  | Some s => step_priority s
  | None => default_priority
  end.

(** [sorted(methods, key=key, reverse=True)]: descending, and stable, so
    that items with equal keys keep their order. *)
Fixpoint insert_reverse (x : Method) (l : list Method) : list Method :=
  match l with
  | [] => [x]
  | y :: l' =>
      if key x <? key y then y :: insert_reverse x l' else x :: y :: l'
  end.

Definition sorted_reverse (l : list Method) : list Method :=
  foldr insert_reverse [] l.

Definition _all_wf_methods (class_body : list Step) (traced : bool)
  : list Method :=
  let methods :=
    map (getattr_wf traced) (List.filter startswith_wf (class_dir class_body)) in
  sorted_reverse methods.

(** [[f for f in fs if f() is _executed]]: the calls are made in order on
    the one instance. The loop [for f in workflow: f()] of [__call__] makes
    the same calls and drops the list. *)
Fixpoint executed_of (fs : list Method) (self : Workflow)
  : Result (list Method * Workflow) :=
  match fs with
  | [] => Ok ([], self)
  | f :: fs' =>
      '(r, self') ← call f self;
      '(ex, self'') ← executed_of fs' self';
      Ok (if is_executed r then f :: ex else ex, self'')
  end.

(** *** Iterators *)

(** An iterator is a state and its [next]: [None] is [StopIteration].
    Streams need not be finite. *)
Context {Iter : Type}.
Context (it_next : Iter -> option (Item * Iter)).

(** [chain(l, it)] *)
Definition Chain : Type := list Item * Iter.

Definition chain_next (c : Chain) : option (Item * Chain) :=
  match c with
  | (x :: l, it) => Some (x, (l, it))
  | ([], it) =>
      match it_next it with
      | Some (x, it') => Some (x, ([], it'))
      | None => None
      end
  end.

(** *** [_get_workflow] *)

Definition _get_workflow (class_body : list Step) (traced : bool)
    (it : Iter) (self : Workflow)
  : Result (Chain * list Method * Workflow) :=
  (* save state *)
  let shortcircuit_state := short_circuit self in
  let self := set_short_circuit false self in
  let stats_copy := stats self in
  match it_next it with
  | None => Raise StopIteration
  | Some (peek, it) =>
      let self := initialize_state peek self in
      '(executed, self) ← executed_of (_all_wf_methods class_body traced) self;
      let executed :=
        if debug self then setup_debug_trace_method :: executed
        else executed in
      (* restore state *)
      let self := set_short_circuit shortcircuit_state self in
      let self := set_stats stats_copy self in
      let generator_reset := ([peek], it) in
      Ok (generator_reset, executed, self)
  end.

(** *** [__call__] *)

(** [__call__] is a generator function: calling it runs nothing and returns
    a generator whose frame is at the entry of the body.  Afterwards the
    frame is inside the [for] loop, or finished.  The callbacks only read
    the instance. *)
Inductive Generator : Type :=
| gen_created (it : Iter) (self : Workflow)
| gen_in_loop (it : Chain) (workflow : list Method) (self : Workflow)
| gen_finished.

Definition __call__ (it : Iter) (self : Workflow) : Generator :=
  gen_created it self.

(** What one stretch of the body does: [_get_workflow] returns; or one turn
    of the loop ends, with the item taken, the methods that executed, the
    instance at the end of the turn and the value yielded, if any; or an
    exception leaves the body.  Returning from the body is, for whoever
    called [next()], a [StopIteration]; so is, in Python 2, a
    [StopIteration] that escapes from a call made by the body. *)
Inductive Event : Type :=
| planned (workflow : list Method)
| processed (item : Item) (executed : list Method) (self : Workflow)
            (out : option State)
| raised (e : exn).

Definition gen_step (class_body : list Step) (traced : bool)
    (success_callback fail_callback : option (Workflow -> State))
    (g : Generator) : Event * Generator :=
  let success_callback :=
    match success_callback with
    | None => fun x => state x
    | Some c => c
    end in
  match g with
  | gen_created it self =>
      match _get_workflow class_body traced it self with
      | Raise e => (raised e, gen_finished)
      | Ok (it, workflow, self) => (planned workflow, gen_in_loop it workflow self)
      end
  | gen_in_loop it workflow self =>
      match chain_next it with
      | None => (raised StopIteration, gen_finished)
      | Some (item, it) =>
          let self := set_failed false self in
          let self := initialize_state item self in
          match executed_of workflow self with
          | Raise e => (raised e, gen_finished)
          | Ok (ex, self) =>
              let out :=
                if failed self then
                  match fail_callback with
                  | Some fc => Some (fc self)
                  | None => None
                  end
                else Some (success_callback self) in
              (processed item ex self out, gen_in_loop it workflow self)
          end
      end
  | gen_finished => (raised StopIteration, gen_finished)
  end.

(** The first [n] events of a generator, up to the exception that ends
    it. *)
Fixpoint events (class_body : list Step) (traced : bool)
    (success_callback fail_callback : option (Workflow -> State))
    (n : nat) (g : Generator) : list Event :=
  match n with
  | O => []
  | S n' =>
      let '(e, g') :=
        gen_step class_body traced success_callback fail_callback g in
      e :: match e with
           | raised _ => []
           | _ => events class_body traced success_callback fail_callback n' g'
           end
  end.

Definition event_output (e : Event) : option State :=
  match e with processed _ _ _ out => out | _ => None end.

Definition event_item (e : Event) : option Item :=
  match e with processed item _ _ _ => Some item | _ => None end.

Definition event_self (e : Event) : option Workflow :=
  match e with processed _ _ self _ => Some self | _ => None end.

Definition event_executed (e : Event) : list Method :=
  match e with processed _ ex _ _ => ex | _ => [] end.

(** The values yielded, the items taken by the loop and the instance at
    the end of each turn, in order. *)
Definition outputs (es : list Event) : list State := omap event_output es.
Definition items (es : list Event) : list Item := omap event_item es.
Definition finals (es : list Event) : list Workflow := omap event_self es.

(** [g.next()]: run the body to the next [yield] or to the exception that
    leaves it; [None] when [fuel] turns of the loop were not enough. *)
Fixpoint gen_next (class_body : list Step) (traced : bool)
    (success_callback fail_callback : option (Workflow -> State))
    (fuel : nat) (g : Generator) : option (Result State * Generator) :=
  match fuel with
  | O => None
  | S fuel' =>
      match gen_step class_body traced success_callback fail_callback g with
      | (processed _ _ _ (Some v), g') => Some (Ok v, g')
      | (raised e, g') => Some (Raise e, g')
      | (_, g') =>
          gen_next class_body traced success_callback fail_callback fuel' g'
      end
  end.

(** [list(g)], or a [for] loop over [g]: [StopIteration] ends the
    iteration, any other exception propagates. *)
Fixpoint py_list (class_body : list Step) (traced : bool)
    (success_callback fail_callback : option (Workflow -> State))
    (fuel : nat) (g : Generator) : option (Result (list State)) :=
  match fuel with
  | O => None
  | S fuel' =>
      match gen_step class_body traced success_callback fail_callback g with
      | (raised StopIteration, _) => Some (Ok [])
      | (raised e, _) => Some (Raise e)
      | (e, g') =>
          match py_list class_body traced success_callback fail_callback
                        fuel' g' with
          | Some (Ok l) =>
              Some (Ok (match event_output e with
                        | Some v => v :: l
                        | None => l
                        end))
          | r => r
          end
      end
  end.

End Workflow.

Arguments Workflow : clear implicits.
Arguments requires : clear implicits.
Arguments Decorator : clear implicits.
Arguments Step : clear implicits.
Arguments Method : clear implicits.
Arguments Generator : clear implicits.
Arguments Event : clear implicits.

(** An iterator over a list: [iter(l)]. *)
Definition list_next {A : Type} (l : list A) : option (A * list A) :=
  match l with
  | [] => None
  | x :: l' => Some (x, l')
  end.

(* ===================================================================== *)
(** ** The workflow of the module docstring *)
(* ===================================================================== *)

Module MyWorkflow.

Definition _allocate_state : Z := 0.

Definition initialize_state (item : Z) (self : Workflow Z) : Workflow Z :=
  mkWorkflow item (failed self) (short_circuit self) (options self)
             (stats self) (debug self) (debug_trace self).

Definition set_state (x : Z) (self : Workflow Z) : Workflow Z :=
  mkWorkflow x (failed self) (short_circuit self) (options self)
             (stats self) (debug self) (debug_trace self).

(** [self.state *= self.state] *)
Definition wf_mul : Step Z :=
  mkStep "wf_mul" (Some 100) no_requirements
         (fun self => set_state (state self * state self) self).

(** [self.state += self.state] *)
Definition wf_double : Step Z :=
  mkStep "wf_double" (Some 10)
         (with_requires (requires_init true (Some "double") arg_anything None))
         (fun self => set_state (state self + state self) self).

(** [self.state -= self.options['sub_value']]; the subtraction is reached
    only with a value that is in [[1, 5, 10]]. *)
Definition wf_sub : Step Z :=
  mkStep "wf_sub" None
         (with_requires
            (requires_init true (Some "sub_value")
                           (arg_iterable [VInt 1; VInt 5; VInt 10]) None))
         (fun self =>
            match options self !! "sub_value" ≫= int_value with
            | Some n => set_state (state self - n) self
            | None => self
            end).

Definition class_body : list (Step Z) := [wf_mul; wf_double; wf_sub].

Definition range10 : list Z := [0; 1; 2; 3; 4; 5; 6; 7; 8; 9].

(** [MyWorkflow(options={'double': None, 'sub_value': 5})] *)
Definition options_5 : gmap string Value :=
  <["double" := VNone]> (<["sub_value" := VInt 5]> ∅).

Definition self_5 : Workflow Z := __init__ _allocate_state true false (Some options_5).

(** What [_get_workflow] returns on it for the stream [3, 4]. *)
Definition resolved_5
  : @Chain Z (list Z) * list (Method Z) * Workflow Z :=
  (([3], [4]),
   [bound_method wf_mul; bound_method wf_double; bound_method wf_sub],
   mkWorkflow 13 false true options_5 ∅ false None).

(** [MyWorkflow(options={'sub_value': 10})] *)
Definition self_10 : Workflow Z :=
  __init__ _allocate_state true false (Some (<["sub_value" := VInt 10]> ∅)).

End MyWorkflow.


(* ===================================================================== *)
(** ** Vocabulary of the properties *)
(* ===================================================================== *)

Section Vocabulary.

Context {Item State Iter : Type}.

(** The first [n] items an iterator gives. *)
Fixpoint take_items {I : Type} (next : I -> option (Item * I)) (n : nat)
    (it : I) : list Item :=
  match n with
  | O => []
  | S n' =>
      match next it with
      | None => []
      | Some (x, it') => x :: take_items next n' it'
      end
  end.

(** The instance with which the call [f()] enters the decorated function of
    a workflow method: the trace wrapper, when there is one, has then
    recorded the name. *)
Definition enters (f : Method State) (self : Workflow State)
  : option (Step State * Workflow State) :=
  match f with
  | bound_method s => Some (s, self)
  | traced_method s =>
      match _debug_trace_wrapper (name s) self with
      | Ok self' => Some (s, self')
      | Raise _ => None
      end
  | setup_debug_trace_method => None
  end.

(** [reaches fs self s c]: calling the methods [fs] in order, starting on
    [self], enters the decorated function of [s] on the instance [c]. *)
Inductive reaches
  : list (Method State) -> Workflow State -> Step State -> Workflow State
    -> Prop :=
| reaches_here f fs self s c :
    enters f self = Some (s, c) ->
    reaches (f :: fs) self s c
| reaches_later f fs self r self' s c :
    call f self = Ok (r, self') ->
    reaches fs self' s c ->
    reaches (f :: fs) self s c.

(** The conditions of a [requires] other than the one on [failed]: the
    data condition, then the option condition. *)
Definition option_condition (r : requires State) (self : Workflow State)
  : Result bool :=
  match req_option r with
  | None => Ok true
  | Some k =>
      match options self !! k with
      | None => Ok false
      | Some v =>
          if is_not_none (values r) && negb (is_None v) then Ok true
          else contains v (values r)
      end
  end.

Definition other_conditions (r : requires State) (self : Workflow State)
  : Result bool :=
  match valid_data r with
  | Some p => if p (state self) then option_condition r self else Ok false
  | None => option_condition r self
  end.

(** [x] comes before [y] in [l]. *)
Definition before {A : Type} (x y : A) (l : list A) : Prop :=
  exists i j : nat, l !! i = Some x /\ l !! j = Some y /\ (i < j)%nat.

(** The order of the methods of a plan: a higher priority first, and among
    equal priorities the smaller name first. *)
Definition name_lt (s t : Step State) : Prop :=
  String.compare (name s) (name t) = Lt.

Definition plan_order (s t : Step State) : Prop :=
  step_priority t < step_priority s
  \/ (step_priority s = step_priority t /\ name_lt s t).

(** The same orders on the callables that wrap workflow methods. *)
Definition method_name_lt (f g : Method State) : Prop :=
  exists s t, method_step f = Some s /\ method_step g = Some t /\ name_lt s t.

Definition method_order (f g : Method State) : Prop :=
  exists s t, method_step f = Some s /\ method_step g = Some t
              /\ plan_order s t.

(** Ties broken by declaration: two methods of equal priority stand in the
    plan as they stand in the class body. *)
Definition ties_in_declaration_order (class_body plan : list (Step State))
  : Prop :=
  forall s t,
    step_priority s = step_priority t ->
    before s t class_body ->
    s ∈ plan -> t ∈ plan ->
    before s t plan.

(** Matchers whose containment test cannot raise, and the methods that have
    one. *)
Definition values_safe (vs : Values) : bool :=
  match vs with
  | anything | values_set _ => true
  | not_none | values_str _ => false
  end.

Definition step_safe (s : Step State) : bool :=
  match decorator s with
  | no_requirements => true
  | with_requires r => values_safe (values r)
  end.

(** Callables that raise nothing: no trace wrapper, no unsafe matcher. *)
Definition method_safe (f : Method State) : bool :=
  match f with
  | bound_method s => step_safe s
  | traced_method _ => false
  | setup_debug_trace_method => true
  end.

(** The plan of a result of [_get_workflow], and its other parts. *)
Definition plan_of (r : @Chain Item Iter * list (Method State) * Workflow State)
  : list (Method State) := snd (fst r).

Definition stream_of (r : @Chain Item Iter * list (Method State) * Workflow State)
  : @Chain Item Iter := fst (fst r).

Definition self_of (r : @Chain Item Iter * list (Method State) * Workflow State)
  : Workflow State := snd r.

(** [success_callback], or its default [lambda x: x.state]. *)
Definition callback_or_state (success_callback : option (Workflow State -> State))
  : Workflow State -> State :=
  match success_callback with
  | None => fun x => state x
  | Some c => c
  end.

(** The events of a run without failure callback: a turn yields nothing
    when it ends with [failed] set and the success value otherwise, and the
    values yielded are those of the turns that did not fail. *)
Definition dropping_events (success_callback : option (Workflow State -> State))
    (es : list (Event Item State)) : Prop :=
  Forall (fun e =>
            forall item ex c out,
              e = processed item ex c out ->
              out = if failed c then None
                    else Some (callback_or_state success_callback c)) es
  /\ outputs es
     = map (callback_or_state success_callback)
           (List.filter (fun c => negb (failed c)) (finals es)).

Definition is_raised (e : Event Item State) : bool :=
  match e with raised _ => true | _ => false end.

End Vocabulary.

(* ===================================================================== *)
(** ** Vocabulary of the further properties *)
(* ===================================================================== *)

Section Observing.

Context {Item State Iter : Type}.

(** The iterator after [n] calls of [next]; [None] when one of them has
    raised [StopIteration]. *)
Fixpoint drop_items {I : Type} (next : I -> option (Item * I)) (n : nat)
    (it : I) : option I :=
  match n with
  | O => Some it
  | S n' =>
      match next it with
      | None => None
      | Some (_, it') => drop_items next n' it'
      end
  end.

(** The generator after [n] stretches of its body. *)
Fixpoint gen_after
    (initialize_state : Item -> Workflow State -> Workflow State)
    (it_next : Iter -> option (Item * Iter))
    (class_body : list (Step State)) (traced : bool)
    (success_callback fail_callback : option (Workflow State -> State))
    (n : nat) (g : Generator Item State Iter) : Generator Item State Iter :=
  match n with
  | O => g
  | S n' =>
      gen_after initialize_state it_next class_body traced success_callback
                fail_callback n'
                (snd (gen_step initialize_state it_next class_body traced
                               success_callback fail_callback g))
  end.

(** The two attributes of debug tracing, assigned together. *)
Definition set_tracing (d : bool) (t : option (list string))
    (w : Workflow State) : Workflow State :=
  mkWorkflow (state w) (failed w) (short_circuit w) (options w) (stats w) d t.

(** User code that neither reads nor writes [debug] and [debug_trace]. *)
Definition ignores_tracing (f : Workflow State -> Workflow State) : Prop :=
  forall d t w, f (set_tracing d t w) = set_tracing d t (f w).

Definition reads_no_tracing (c : option (Workflow State -> State)) : Prop :=
  forall d t w,
    callback_or_state c (set_tracing d t w) = callback_or_state c w.

(** What the consumer of the generator can tell of an event: that a turn
    took an item and yielded or not, or that an exception ended the run. *)
Inductive Observation : Type :=
| seen_planned
| seen_turn (item : Item) (out : option State)
| seen_raised (e : exn).

Definition observe (e : Event Item State) : Observation :=
  match e with
  | planned _ => seen_planned
  | processed item _ _ out => seen_turn item out
  | raised e => seen_raised e
  end.

(** The value a turn that ends on [c] yields when both callbacks are
    there. *)
Definition yielded (success_callback : option (Workflow State -> State))
    (fail_callback : Workflow State -> State) (c : Workflow State) : State :=
  if failed c then fail_callback c
  else callback_or_state success_callback c.

(** The instances on which the turns of the loop end, for the items [xs]
    taken in order, when the loop calls [workflow] and starts on [self]:
    each turn clears [failed], initialises the state from its item and
    calls the methods; the first turn in which a method raises ends the
    list. *)
Fixpoint turns (initialize_state : Item -> Workflow State -> Workflow State)
    (workflow : list (Method State)) (self : Workflow State)
    (xs : list Item) : list (Workflow State) :=
  match xs with
  | [] => []
  | x :: xs' =>
      match executed_of workflow
              (initialize_state x (set_failed false self)) with
      | Ok (_, self') => self' :: turns initialize_state workflow self' xs'
      | Raise _ => []
      end
  end.

(** Under trace wrappers the instance has its [debug_trace]. *)
Definition trace_ready (traced : bool) (x : Workflow State) : Prop :=
  traced = true -> is_Some (debug_trace x).

(** A workflow none of whose calls can raise: every requirement matches
    with [anything] or a set, and, when the methods are wrapped for
    tracing, the instance has its [debug_trace] and the user code leaves
    one in place. *)
Definition raises_nothing
    (initialize_state : Item -> Workflow State -> Workflow State)
    (class_body : list (Step State)) (traced : bool)
    (self : Workflow State) : Prop :=
  (forall s, s ∈ class_body -> step_safe s = true)
  /\ trace_ready traced self
  /\ (forall item x,
        trace_ready traced x -> trace_ready traced (initialize_state item x))
  /\ (forall s x,
        s ∈ class_body ->
        trace_ready traced x -> trace_ready traced (body s x)).

(** The callables of a plan of the class: its methods as [getattr] gives
    them, and the reset of the trace. *)
Definition plan_method (class_body : list (Step State)) (traced : bool)
    (f : Method State) : Prop :=
  f = setup_debug_trace_method
  \/ exists s, s ∈ class_body /\ f = getattr_wf traced s.

(** Whether a method runs its function once [failed] is set under
    short-circuiting, on the instance [d] it is entered with. *)
Definition runs_when_failed (s : Step State) (d : Workflow State) : Prop :=
  match decorator s with
  | no_requirements => True
  | with_requires r => valid_state r = false /\ other_conditions r d = Ok true
  end.

(** [w1] is [w2] with tracing on: the same attributes, but [debug] set and
    a [debug_trace] there, while [w2] has [debug] clear. *)
Definition traced_of (w1 w2 : Workflow State) : Prop :=
  debug w2 = false /\ exists t, w1 = set_tracing true (Some t) w2.

(** Two results that are both values, related by [Q], or both the same
    exception. *)
Definition same_outcome {A B : Type} (Q : A -> B -> Prop)
    (r1 : Result A) (r2 : Result B) : Prop :=
  match r1, r2 with
  | Ok a, Ok b => Q a b
  | Raise e1, Raise e2 => e1 = e2
  | _, _ => False
  end.

End Observing.

Arguments Observation : clear implicits.

(* ===================================================================== *)
(** ** Sample workflows *)
(* ===================================================================== *)

(** Two methods of equal priority, the later name defined first. *)
Module TieBreak.

Definition wf_b : Step Z :=
  mkStep "wf_b" None no_requirements
         (fun self => MyWorkflow.set_state (state self + 1) self).

Definition wf_a : Step Z :=
  mkStep "wf_a" None no_requirements
         (fun self => MyWorkflow.set_state (state self * 2) self).

Definition class_body : list (Step Z) := [wf_b; wf_a].

Definition self : Workflow Z := __init__ 0 true false None.

End TieBreak.

(** A workflow whose one method marks every item as failed, then two
    methods that do or do not honour the failure. *)
Module Failing.

Definition wf_fail : Step Z :=
  mkStep "wf_fail" (Some 10) no_requirements (set_failed true).

Definition wf_gated : Step Z :=
  mkStep "wf_gated" (Some 5)
         (with_requires (requires_init true None arg_anything None))
         (fun self => MyWorkflow.set_state (state self + 100) self).

Definition wf_always : Step Z :=
  mkStep "wf_always" (Some 1)
         (with_requires (requires_init false None arg_anything None))
         (fun self => MyWorkflow.set_state (state self + 1) self).

Definition class_body : list (Step Z) := [wf_fail; wf_gated; wf_always].

Definition self : Workflow Z := __init__ 0 true false None.

(** The instance once [wf_fail] has run on the item 7. *)
Definition failed_self : Workflow Z :=
  set_failed true (MyWorkflow.initialize_state 7 self).

End Failing.

(** Requirements on an option. *)
Module OnOption.

(** [@requires(option='opt', values='abc')] *)
Definition wf_str : Step Z :=
  mkStep "wf_str" None
         (with_requires
            (requires_init true (Some "opt") (arg_scalar (VStr "abc")) None))
         (fun self => MyWorkflow.set_state 1 self).

(** [@requires(option='opt', values=not_none)] *)
Definition wf_not_none : Step Z :=
  mkStep "wf_not_none" None
         (with_requires (requires_init true (Some "opt") arg_not_none None))
         (fun self => MyWorkflow.set_state 1 self).

Definition with_opt (v : Value) : Workflow Z :=
  __init__ 0 true false (Some (<["opt" := v]> ∅)).

End OnOption.

(** A method with a data condition: it wants a state above 5. *)
Module OnData.

Definition wf_big : Step Z :=
  mkStep "wf_big" None
         (with_requires
            (requires_init true None arg_anything (Some (fun x => 5 <? x))))
         (fun self => MyWorkflow.set_state (state self + 1000) self).

Definition class_body : list (Step Z) := [wf_big].

Definition self : Workflow Z := __init__ 0 true false None.

(** What [_get_workflow] returns on it for the stream [1, 10]: the first
    item is not above 5. *)
Definition resolved : @Chain Z (list Z) * list (Method Z) * Workflow Z :=
  (([1], [10]), [], mkWorkflow 1 false true ∅ ∅ false None).

End OnData.

(** The docstring workflow built with [debug=True]. *)
Module Traced.

Definition self : Workflow Z :=
  __init__ MyWorkflow._allocate_state true true (Some MyWorkflow.options_5).

(** [fail_callback = lambda x: -1] *)
Definition minus_one (x : Workflow Z) : Z := -1.

(** What [_get_workflow] returns on it for the stream [3, 4]. *)
Definition resolved : @Chain Z (list Z) * list (Method Z) * Workflow Z :=
  (([3], [4]),
   [setup_debug_trace_method; traced_method MyWorkflow.wf_mul;
    traced_method MyWorkflow.wf_double; traced_method MyWorkflow.wf_sub],
   mkWorkflow 13 false true MyWorkflow.options_5 ∅ true
              (Some ["wf_mul"; "wf_double"; "wf_sub"])).

End Traced.

(** A class whose one method wants the option ['opt'] to be anything but
    [None], on an instance where it is [None]. *)
Module NotNoneOnNone.

Definition class_body : list (Step Z) := [OnOption.wf_not_none].

Definition self : Workflow Z := OnOption.with_opt VNone.

End NotNoneOnNone.

(** A method that clears [failed] between one that sets it and one that
    honours it. *)
Module Clearing.

Definition wf_a_fail : Step Z :=
  mkStep "wf_a_fail" (Some 30) no_requirements (set_failed true).

Definition wf_b_clear : Step Z :=
  mkStep "wf_b_clear" (Some 20) no_requirements (set_failed false).

Definition wf_c_gated : Step Z :=
  mkStep "wf_c_gated" (Some 10)
         (with_requires (requires_init true None arg_anything None))
         (fun self => MyWorkflow.set_state (state self + 100) self).

Definition class_body : list (Step Z) := [wf_a_fail; wf_b_clear; wf_c_gated].

Definition self : Workflow Z := __init__ 0 true false None.

End Clearing.

(** The failing workflow resolved on the stream [7], and its one turn. *)
Module FailingRun.

Definition plan : list (Method Z) :=
  [bound_method Failing.wf_fail; bound_method Failing.wf_gated;
   bound_method Failing.wf_always].

Definition resolved : @Chain Z (list Z) * list (Method Z) * Workflow Z :=
  (([7], []), plan, mkWorkflow 108 true true ∅ ∅ false None).

(** The instance at the end of the turn for the item 7. *)
Definition final : Workflow Z := mkWorkflow 8 true true ∅ ∅ false None.

End FailingRun.

(** A workflow whose one method fails the items below 5:
    [if self.state < 5: self.failed = True]. *)
Module Picky.

Definition wf_check : Step Z :=
  mkStep "wf_check" None no_requirements
         (fun self => if state self <? 5 then set_failed true self else self).

Definition class_body : list (Step Z) := [wf_check].

Definition self : Workflow Z := __init__ 0 true false None.

End Picky.

(* ===================================================================== *)
(** ** Properties *)
(* ===================================================================== *)

(** *** The example of the module docstring *)

(** C1. The three methods [wf_mul] (priority 100, no requirements,
    [state *= state]), [wf_double] (priority 10, option ['double'],
    [state += state]) and [wf_sub] (default priority, option ['sub_value']
    within [[1, 5, 10]], [state -= options['sub_value']]), run with options
    holding the key ['double'] (whatever its value) and ['sub_value'] = 5
    over the stream 0..9, yield exactly [(i * i) * 2 - 5] for i = 0..9, in
    order; this with or without short-circuiting and debug tracing. *)
Theorem C1_docstring_example (double : Value) (short_circuit debug : bool) :
  py_list MyWorkflow.initialize_state list_next MyWorkflow.class_body debug
          None None 12
          (__call__ MyWorkflow.range10
             (__init__ MyWorkflow._allocate_state short_circuit debug
                (Some (<["double" := double]> (<["sub_value" := VInt 5]> ∅)))))
  = Some (Ok (map (fun i => (i * i) * 2 - 5) MyWorkflow.range10)).
Proof.
  destruct short_circuit, debug; vm_compute; reflexivity.
Qed.

Section Properties.

Context {Item State Iter : Type}.
Context (initialize_state : Item -> Workflow State -> Workflow State).
Context (it_next : Iter -> option (Item * Iter)).

(** *** Requirement evaluation *)

(** A requirement that is not short-circuited and whose data condition
    holds is decided by its option condition. *)
Lemma requires_decorated_conditions (r : requires State)
    (f : Workflow State -> Workflow State) (self : Workflow State) :
  do_short_circuit r self = false ->
  requires_decorated r f self
  = b ← other_conditions r self;
    Ok (if b : bool then (_executed, f self) else (returned_None, self)).
Proof.
  intros Hsc. unfold requires_decorated, other_conditions, option_condition.
  rewrite Hsc.
  destruct (valid_data r) as [p|]; [destruct (p (state self))|]; simpl;
    try reflexivity;
    (destruct (req_option r) as [k|]; [|reflexivity];
     destruct (options self !! k) as [v|]; [|reflexivity];
     destruct (is_not_none (values r) && negb (is_None v)); [reflexivity|];
     destruct (contains v (values r)) as [[]|]; reflexivity).
Qed.

(** A short-circuited requirement returns [None] at once. *)
Lemma requires_decorated_short_circuit (r : requires State)
    (f : Workflow State -> Workflow State) (self : Workflow State) :
  do_short_circuit r self = true ->
  requires_decorated r f self = Ok (returned_None, self).
Proof. intros Hsc. unfold requires_decorated. now rewrite Hsc. Qed.

(** C8. With a single string [s] as the allowed values, a requirement whose
    other gates are open executes the method exactly when the option's
    string value [t] occurs somewhere inside [s] ([t in s] on two strings),
    which a [t] different from [s] can do. *)
Theorem C8_str_values_substring (r : requires State)
    (f : Workflow State -> Workflow State) (self : Workflow State)
    (k s t : string) :
  values r = values_str s ->
  req_option r = Some k ->
  options self !! k = Some (VStr t) ->
  do_short_circuit r self = false ->
  (forall p, valid_data r = Some p -> p (state self) = true) ->
  requires_decorated r f self
  = Ok (if str_contains t s then (_executed, f self)
        else (returned_None, self)).
Proof.
  intros Hv Hk Ho Hsc Hd.
  rewrite requires_decorated_conditions by assumption.
  unfold other_conditions, option_condition.
  rewrite Hk, Ho, Hv. simpl.
  destruct (valid_data r) as [p|]; [rewrite (Hd p eq_refl)|]; reflexivity.
Qed.

(** C9. With the [not_none] matcher and the option present with the value
    [None], a requirement whose other gates are open raises [TypeError]:
    the test [v in self.values] is made on a bare [object()]. *)
Theorem C9_not_none_on_None_raises (r : requires State)
    (f : Workflow State -> Workflow State) (self : Workflow State)
    (k : string) :
  values r = not_none ->
  req_option r = Some k ->
  options self !! k = Some VNone ->
  do_short_circuit r self = false ->
  (forall p, valid_data r = Some p -> p (state self) = true) ->
  requires_decorated r f self = Raise TypeError.
Proof.
  intros Hv Hk Ho Hsc Hd.
  rewrite requires_decorated_conditions by assumption.
  unfold other_conditions, option_condition.
  rewrite Hk, Ho, Hv. simpl.
  destruct (valid_data r) as [p|]; [rewrite (Hd p eq_refl)|]; reflexivity.
Qed.

(** *** Calls never raise [StopIteration] *)

Lemma contains_not_StopIteration (v : Value) (vs : Values) :
  contains v vs <> Raise StopIteration.
Proof. destruct vs, v; discriminate. Qed.

Lemma decorated_not_StopIteration (s : Step State) (self : Workflow State) :
  decorated s self <> Raise StopIteration.
Proof.
  unfold decorated, no_requirements_decorated, requires_decorated.
  destruct (decorator s) as [|r]; [discriminate|].
  destruct (do_short_circuit r self); [discriminate|].
  destruct (match valid_data r with Some p => _ | None => _ end);
    [discriminate|].
  destruct (req_option r) as [k|]; [|discriminate].
  destruct (options self !! k) as [v|]; [|discriminate].
  destruct (is_not_none (values r) && negb (is_None v)); [discriminate|].
  pose proof (contains_not_StopIteration v (values r)) as Hc.
  destruct (contains v (values r)) as [[]|e]; simpl; try discriminate.
  congruence.
Qed.

Lemma call_not_StopIteration (f : Method State) (self : Workflow State) :
  call f self <> Raise StopIteration.
Proof.
  destruct f as [s|s|]; simpl.
  - apply decorated_not_StopIteration.
  - unfold _debug_trace_wrapper.
    destruct (debug_trace self); simpl; [|discriminate].
    apply decorated_not_StopIteration.
  - discriminate.
Qed.

Lemma executed_of_not_StopIteration (fs : list (Method State))
    (self : Workflow State) :
  executed_of fs self <> Raise StopIteration.
Proof.
  revert self. induction fs as [|f fs IH]; intros self; simpl; [discriminate|].
  pose proof (call_not_StopIteration f self) as Hf.
  destruct (call f self) as [[r self']|e]; simpl; [|congruence].
  specialize (IH self').
  destruct (executed_of fs self') as [[ex self'']|e]; simpl;
    [discriminate | congruence].
Qed.

(** *** [chain([peek], it)] gives back the stream *)

Lemma take_items_chain_nil (n : nat) (it : Iter) :
  take_items (Item:=Item) (chain_next it_next) n ([], it)
  = take_items it_next n it.
Proof.
  revert it. induction n as [|n IH]; intros it; simpl; [reflexivity|].
  destruct (it_next it) as [[x it']|]; [|reflexivity].
  f_equal. apply IH.
Qed.

Lemma take_items_chain_peek (n : nat) (peek : Item) (it it' : Iter) :
  it_next it = Some (peek, it') ->
  take_items (chain_next it_next) n ([peek], it') = take_items it_next n it.
Proof.
  intros Hnext. destruct n as [|n]; simpl; [reflexivity|].
  rewrite Hnext. f_equal. apply take_items_chain_nil.
Qed.

(** *** The events of a run *)

Section Run.

Context (class_body : list (Step State)) (traced : bool).
Context (success_callback fail_callback : option (Workflow State -> State)).

Local Abbreviation step := (gen_step initialize_state it_next class_body traced
                                 success_callback fail_callback).
Local Abbreviation run := (events initialize_state it_next class_body traced
                              success_callback fail_callback).

Local Abbreviation on_success := (callback_or_state success_callback).

Lemma events_S (n : nat) (g : Generator Item State Iter) :
  run (S n) g
  = fst (step g) :: (if is_raised (fst (step g)) then [] else run n (snd (step g))).
Proof.
  simpl. destruct (gen_step _ _ _ _ _ _ g) as [e g']. simpl.
  destruct e; reflexivity.
Qed.

(** One turn of the loop. *)
Lemma step_in_loop (c : Chain) (workflow : list (Method State))
    (self : Workflow State) :
  step (gen_in_loop c workflow self)
  = match chain_next it_next c with
    | None => (raised StopIteration, gen_finished)
    | Some (item, c') =>
        match executed_of workflow
                (initialize_state item (set_failed false self)) with
        | Raise e => (raised e, gen_finished)
        | Ok (ex, self') =>
            (processed item ex self'
               (if failed self' then
                  match fail_callback with
                  | Some fc => Some (fc self')
                  | None => None
                  end
                else Some (on_success self')),
             gen_in_loop c' workflow self')
        end
    end.
Proof.
  unfold gen_step, callback_or_state.
  destruct (chain_next it_next c) as [[item c']|]; [|reflexivity].
  destruct (executed_of _ _) as [[ex self']|]; reflexivity.
Qed.

(** The first stretch: plan resolution. *)
Lemma step_created (it : Iter) (self : Workflow State) :
  step (__call__ it self)
  = match _get_workflow initialize_state it_next class_body traced it self with
    | Raise e => (raised e, gen_finished)
    | Ok (c, workflow, self') => (planned workflow, gen_in_loop c workflow self')
    end.
Proof.
  unfold gen_step, __call__.
  destruct (_get_workflow _ _ _ _ _ _) as [[[c workflow] self']|]; reflexivity.
Qed.

Lemma items_processed (item : Item) (ex : list (Method State))
    (self : Workflow State) (out : option State) (es : list (Event Item State)) :
  items (processed item ex self out :: es) = item :: items es.
Proof. reflexivity. Qed.

Lemma finals_processed (item : Item) (ex : list (Method State))
    (self : Workflow State) (out : option State) (es : list (Event Item State)) :
  finals (processed item ex self out :: es) = self :: finals es.
Proof. reflexivity. Qed.

Lemma outputs_processed (item : Item) (ex : list (Method State))
    (self : Workflow State) (out : option State) (es : list (Event Item State)) :
  outputs (processed item ex self out :: es)
  = match out with Some v => v :: outputs es | None => outputs es end.
Proof. reflexivity. Qed.

(** The turns of the loop take the items of the stream it iterates over,
    one each, in order. *)
Lemma loop_items_prefix (n : nat) (c : Chain)
    (workflow : list (Method State)) (self : Workflow State) :
  items (run n (gen_in_loop c workflow self))
  = take_items (chain_next it_next)
               (length (items (run n (gen_in_loop c workflow self)))) c.
Proof.
  revert c self. induction n as [|n IH]; intros c self; [reflexivity|].
  rewrite events_S, step_in_loop.
  destruct (chain_next it_next c) as [[item c']|] eqn:Hc; [|reflexivity].
  destruct (executed_of _ _) as [[ex self']|]; [|reflexivity].
  cbn [fst snd is_raised]. rewrite items_processed.
  cbn [length take_items]. rewrite Hc. f_equal. apply IH.
Qed.

Lemma loop_items_count (n : nat) (c : Chain)
    (workflow : list (Method State)) (self : Workflow State) :
  Forall (fun e => is_raised e = false) (run n (gen_in_loop c workflow self)) ->
  length (items (run n (gen_in_loop c workflow self))) = n.
Proof.
  revert c self. induction n as [|n IH]; intros c self; [reflexivity|].
  rewrite events_S, step_in_loop.
  destruct (chain_next it_next c) as [[item c']|] eqn:Hc.
  - destruct (executed_of _ _) as [[ex self']|].
    + cbn [fst snd is_raised]. rewrite items_processed. cbn [length].
      intros H. f_equal. apply IH. now inversion H.
    + intros H. inversion H; discriminate.
  - intros H. inversion H; discriminate.
Qed.

(** So do the turns of a whole run: resolution has put the first item
    back. *)
Lemma run_items_prefix (it : Iter) (self : Workflow State) (n : nat) :
  items (run n (__call__ it self))
  = take_items it_next (length (items (run n (__call__ it self)))) it.
Proof.
  destruct n as [|n]; [reflexivity|].
  rewrite events_S, step_created. unfold _get_workflow.
  destruct (it_next it) as [[peek it']|] eqn:Hnext; [|reflexivity].
  destruct (executed_of _ _) as [[ex self']|]; simpl; [|reflexivity].
  change (items (planned ?w :: ?es)) with (items es).
  rewrite loop_items_prefix at 1.
  now apply take_items_chain_peek.
Qed.

Lemma finals_items_length (es : list (Event Item State)) :
  length (finals es) = length (items es).
Proof.
  induction es as [|e es IH]; [reflexivity|].
  destruct e; simpl; [exact IH | now f_equal | exact IH].
Qed.

(** When the loop ends because its stream is exhausted, the items it took
    are all the items of the stream. *)
Lemma loop_items_all (n : nat) (c : Chain)
    (workflow : list (Method State)) (self : Workflow State) :
  last (run n (gen_in_loop c workflow self)) = Some (raised StopIteration) ->
  forall m : nat,
    take_items (chain_next it_next) m c
    = take m (items (run n (gen_in_loop c workflow self))).
Proof.
  revert c self. induction n as [|n IH]; intros c self; [discriminate|].
  rewrite events_S, step_in_loop.
  destruct (chain_next it_next c) as [[item c']|] eqn:Hc.
  - pose proof (executed_of_not_StopIteration workflow
                  (initialize_state item (set_failed false self))) as Hex.
    destruct (executed_of _ _) as [[ex self']|e].
    + cbn [fst snd is_raised]. rewrite last_cons, items_processed.
      intros Hlast m.
      destruct (last (run n (gen_in_loop c' workflow self'))) as [e|] eqn:Hl;
        [|discriminate].
      destruct m as [|m]; [reflexivity|].
      cbn [take_items take]. rewrite Hc. f_equal. apply IH. congruence.
    + cbn [fst snd is_raised last]. intros [= ->]. congruence.
  - intros _ m. cbn [fst snd is_raised]. destruct m; simpl; [reflexivity|].
    now rewrite Hc.
Qed.


End Run.


(** *** What a call does to the instance *)

(** A decorated method either calls the function it wraps and returns
    [_executed], or returns [None] and leaves the instance alone. *)
Lemma decorated_cases (s : Step State) (self self' : Workflow State) (r : Ret) :
  decorated s self = Ok (r, self') ->
  (r = _executed /\ self' = body s self)
  \/ (r = returned_None /\ self' = self).
Proof.
  unfold decorated, no_requirements_decorated, requires_decorated.
  destruct (decorator s) as [|rq]; [intros [= <- <-]; now left|].
  destruct (do_short_circuit rq self); [intros [= <- <-]; now right|].
  destruct (match valid_data rq with Some p => _ | None => _ end);
    [intros [= <- <-]; now right|].
  destruct (req_option rq) as [k|]; [|intros [= <- <-]; now left].
  destruct (options self !! k) as [v|]; [|intros [= <- <-]; now right].
  destruct (is_not_none (values rq) && negb (is_None v));
    [intros [= <- <-]; now left|].
  destruct (contains v (values rq)) as [[]|e]; simpl;
    [intros [= <- <-]; now left | intros [= <- <-]; now right | discriminate].
Qed.

(** The trace wrapper touches [debug_trace] only. *)
Lemma _debug_trace_wrapper_fields (n : string) (self self' : Workflow State) :
  _debug_trace_wrapper n self = Ok self' ->
  state self' = state self /\ failed self' = failed self
  /\ short_circuit self' = short_circuit self
  /\ options self' = options self /\ stats self' = stats self
  /\ debug self' = debug self.
Proof.
  unfold _debug_trace_wrapper.
  destruct (debug_trace self); [|discriminate].
  intros [= <-]. repeat split.
Qed.

Lemma enters_fields (f : Method State) (self : Workflow State)
    (s : Step State) (c : Workflow State) :
  enters f self = Some (s, c) ->
  method_step f = Some s
  /\ state c = state self /\ failed c = failed self
  /\ short_circuit c = short_circuit self
  /\ options c = options self /\ stats c = stats self
  /\ debug c = debug self.
Proof.
  destruct f as [t|t|]; simpl.
  - intros [= <- <-]. repeat split.
  - destruct (_debug_trace_wrapper (name t) self) as [self'|] eqn:Hw;
      [|discriminate].
    intros [= <- <-]. split; [reflexivity|].
    now apply _debug_trace_wrapper_fields in Hw.
  - discriminate.
Qed.

(** A call that returns went through [enters], unless it is the call of
    [_setup_debug_trace]. *)
Lemma call_cases (f : Method State) (self self' : Workflow State) (r : Ret) :
  call f self = Ok (r, self') ->
  (exists s c, enters f self = Some (s, c) /\ decorated s c = Ok (r, self'))
  \/ (f = setup_debug_trace_method /\ r = returned_None
      /\ self' = _setup_debug_trace self).
Proof.
  destruct f as [s|s|]; simpl.
  - intros H. left. now exists s, self.
  - destruct (_debug_trace_wrapper (name s) self) as [c|]; simpl;
      [|discriminate].
    intros H. left. now exists s, c.
  - intros [= <- <-]. now right.
Qed.

(** *** Short-circuiting *)

(** *** The methods of the class and of the plan *)

Lemma bind_name_elem_of (s t : Step State) (ns : list (Step State)) :
  s ∈ bind_name t ns -> s = t \/ s ∈ ns.
Proof.
  induction ns as [|u ns IH]; simpl.
  - intros H. apply list_elem_of_singleton in H. now left.
  - destruct (String.compare (name t) (name u)).
    + intros H. apply elem_of_cons in H as [->|H]; [now left|].
      right. now apply list_elem_of_further.
    + intros H. apply elem_of_cons in H as [->|H]; [now left | now right].
    + intros H. apply elem_of_cons in H as [->|H].
      * right. apply list_elem_of_here.
      * destruct (IH H) as [->|H']; [now left|].
        right. now apply list_elem_of_further.
Qed.

Lemma class_dir_elem_of (class_body : list (Step State)) (s : Step State) :
  s ∈ class_dir class_body -> s ∈ class_body.
Proof.
  unfold class_dir.
  assert (H : forall acc,
             s ∈ fold_left (fun ns t => bind_name t ns) class_body acc ->
             s ∈ acc \/ s ∈ class_body).
  { induction class_body as [|t cb IH]; intros acc; simpl; [now left|].
    intros Hs. destruct (IH _ Hs) as [Hs'|Hs'].
    - destruct (bind_name_elem_of _ _ _ Hs') as [->|Hacc];
        [right; apply list_elem_of_here | now left].
    - right. now apply list_elem_of_further. }
  intros Hs. destruct (H [] Hs) as [Hnil|Hcb]; [|exact Hcb].
  now apply elem_of_nil in Hnil.
Qed.

Lemma insert_reverse_Permutation (x : Method State) (l : list (Method State)) :
  insert_reverse x l ≡ₚ x :: l.
Proof.
  induction l as [|y l IH]; simpl; [reflexivity|].
  destruct (key x <? key y); [|reflexivity].
  rewrite IH. apply perm_swap.
Qed.

Lemma sorted_reverse_Permutation (l : list (Method State)) :
  sorted_reverse l ≡ₚ l.
Proof.
  induction l as [|x l IH]; simpl; [reflexivity|].
  now rewrite insert_reverse_Permutation, IH.
Qed.

(** Every method [_all_wf_methods] returns is a method of the class body. *)
Lemma _all_wf_methods_elem_of (class_body : list (Step State)) (traced : bool)
    (f : Method State) :
  f ∈ _all_wf_methods class_body traced ->
  exists s, s ∈ class_body /\ f = getattr_wf traced s
            /\ method_step f = Some s.
Proof.
  unfold _all_wf_methods. rewrite sorted_reverse_Permutation.
  intros H. apply list_elem_of_In, in_map_iff in H as (s & <- & Hs).
  apply filter_In in Hs as [Hs _]. apply list_elem_of_In in Hs.
  exists s. split; [now apply class_dir_elem_of|].
  split; [reflexivity|]. unfold getattr_wf. now destruct traced.
Qed.

(** The executed methods are some of the methods called, in their order. *)
Lemma executed_of_sublist (fs ex : list (Method State))
    (self self' : Workflow State) :
  executed_of fs self = Ok (ex, self') -> ex `sublist_of` fs.
Proof.
  revert ex self self'. induction fs as [|f fs IH]; intros ex self self'; simpl.
  - intros [= <- _]. constructor.
  - destruct (call f self) as [[r self1]|]; simpl; [|discriminate].
    destruct (executed_of fs self1) as [[ex1 self2]|] eqn:Hex; simpl;
      [|discriminate].
    intros [= <- _]. specialize (IH _ _ _ Hex).
    destruct (is_executed r); now constructor.
Qed.

Lemma steps_of_cons (f : Method State) (fs : list (Method State)) :
  steps_of (f :: fs)
  = match method_step f with
    | Some t => t :: steps_of fs
    | None => steps_of fs
    end.
Proof. reflexivity. Qed.

Lemma steps_of_elem_of (fs : list (Method State)) (s : Step State) :
  s ∈ steps_of fs <-> exists f, f ∈ fs /\ method_step f = Some s.
Proof. apply list_elem_of_omap. Qed.

(** In every turn of the loop the methods that execute are methods of the
    plan. *)
Lemma loop_executed_in_plan (class_body : list (Step State)) (traced : bool)
    (success_callback fail_callback : option (Workflow State -> State))
    (n : nat) (c : Chain) (workflow : list (Method State))
    (self : Workflow State) :
  Forall (fun e => event_executed e `sublist_of` workflow)
         (events initialize_state it_next class_body traced success_callback
                 fail_callback n (gen_in_loop c workflow self)).
Proof.
  revert c self. induction n as [|n IH]; intros c self; [constructor|].
  rewrite events_S, step_in_loop.
  destruct (chain_next it_next c) as [[item c']|].
  - destruct (executed_of _ _) as [[ex self']|e] eqn:Hex.
    + cbn [fst snd is_raised]. constructor; [|apply IH].
      simpl. now apply executed_of_sublist in Hex.
    + repeat constructor. apply sublist_nil_l.
  - repeat constructor. apply sublist_nil_l.
Qed.

(** *** Options that are absent *)

(** A requirement on an option that the instance does not have returns
    [None] and calls nothing. *)
Lemma decorated_absent_option (s : Step State) (r : requires State)
    (k : string) (self : Workflow State) :
  decorator s = with_requires r ->
  req_option r = Some k ->
  options self !! k = None ->
  decorated s self = Ok (returned_None, self).
Proof.
  intros Hd Hk Ho. unfold decorated, requires_decorated. rewrite Hd.
  destruct (do_short_circuit r self); [reflexivity|].
  destruct (match valid_data r with Some p => _ | None => _ end);
    [reflexivity|].
  now rewrite Hk, Ho.
Qed.

Lemma executed_of_absent_option (s : Step State) (r : requires State)
    (k : string) (fs ex : list (Method State)) (self self' : Workflow State) :
  decorator s = with_requires r ->
  req_option r = Some k ->
  options self !! k = None ->
  (forall f t x, f ∈ fs -> method_step f = Some t ->
                 options (body t x) = options x) ->
  executed_of fs self = Ok (ex, self') ->
  (s ∉ steps_of ex) /\ options self' = options self.
Proof.
  intros Hd Hk. revert ex self self'.
  induction fs as [|f fs IH]; intros ex self self' Ho Hbody; simpl.
  - intros [= <- <-]. split; [apply not_elem_of_nil | reflexivity].
  - destruct (call f self) as [[r0 self1]|] eqn:Hcall; simpl; [|discriminate].
    destruct (executed_of fs self1) as [[ex1 self2]|] eqn:Hex; simpl;
      [|discriminate].
    intros [= <- <-].
    assert (Hopt1 : options self1 = options self
                    /\ (is_executed r0 = true -> method_step f <> Some s)).
    { destruct (call_cases _ _ _ _ Hcall)
        as [(t & d & Hin & Hdec) | (-> & -> & ->)]; [|now split].
      apply enters_fields in Hin as (Ht & _ & _ & _ & Hod & _).
      split.
      - destruct (decorated_cases _ _ _ _ Hdec) as [[_ ->] | [_ ->]];
          [|exact Hod].
        rewrite (Hbody f t d (list_elem_of_here _ _) Ht). exact Hod.
      - intros Hr0 Hfs. rewrite Ht in Hfs. injection Hfs as ->.
        rewrite (decorated_absent_option s r k d Hd Hk) in Hdec
          by now rewrite Hod.
        injection Hdec as <- _. discriminate. }
    destruct Hopt1 as [Hopt1 Hnot].
    destruct (IH ex1 self1 self2) as [IH1 IH2];
      [now rewrite Hopt1
      | intros g t x Hg; apply Hbody; now apply list_elem_of_further
      | exact Hex |].
    split; [|now rewrite IH2].
    destruct (is_executed r0); [|exact IH1].
    rewrite steps_of_cons.
    destruct (method_step f) as [t|] eqn:Ht; [|exact IH1].
    apply not_elem_of_cons. split; [|exact IH1].
    intros ->. now apply Hnot.
Qed.

(** C5. When neither the methods nor [initialize_state] change the
    options, a method that requires an option absent from the options is
    in no plan [_get_workflow] returns, whatever the first item, and never
    executes in any turn of the run. *)
Theorem C5_absent_option_never_planned (class_body : list (Step State))
    (traced : bool)
    (success_callback fail_callback : option (Workflow State -> State))
    (it : Iter) (self : Workflow State)
    (s : Step State) (r : requires State) (k : string) (n : nat) :
  decorator s = with_requires r ->
  req_option r = Some k ->
  options self !! k = None ->
  (forall item x, options (initialize_state item x) = options x) ->
  (forall t x, t ∈ class_body -> options (body t x) = options x) ->
  (forall res,
      _get_workflow initialize_state it_next class_body traced it self = Ok res ->
      s ∉ steps_of (plan_of res))
  /\ Forall (fun e => s ∉ steps_of (event_executed e))
            (events initialize_state it_next class_body traced success_callback
                    fail_callback n (__call__ it self)).
Proof.
  intros Hd Hk Ho Hinit Hbody.
  assert (Hplan : forall res,
             _get_workflow initialize_state it_next class_body traced it self
             = Ok res -> s ∉ steps_of (plan_of res)).
  { intros res. unfold _get_workflow.
    destruct (it_next it) as [[peek it']|]; [|discriminate].
    destruct (executed_of _ _) as [[ex self']|] eqn:Hex; simpl; [|discriminate].
    intros [= <-]. unfold plan_of. simpl.
    apply (executed_of_absent_option s r k) in Hex as [Hs _];
      [ | exact Hd | exact Hk | now rewrite Hinit | ].
    - now destruct (debug self').
    - intros f t x Hf Ht. apply Hbody.
      apply _all_wf_methods_elem_of in Hf as (u & Hu & _ & Hfu).
      congruence. }
  split; [exact Hplan|].
  destruct n as [|n]; [constructor|].
  rewrite events_S, step_created.
  destruct (_get_workflow _ _ _ _ _ _) as [[[c workflow] self']|e] eqn:Hg.
  - cbn [fst snd is_raised]. constructor; [apply not_elem_of_nil|].
    specialize (Hplan _ eq_refl). unfold plan_of in Hplan. simpl in Hplan.
    eapply Forall_impl;
      [apply (loop_executed_in_plan class_body traced success_callback
                                    fail_callback)|].
    intros e Hsub Hs. simpl in Hsub. apply Hplan.
    apply steps_of_elem_of in Hs as (f & Hf & Hfs).
    apply steps_of_elem_of. exists f. split; [|exact Hfs].
    eapply elem_of_sublist; eassumption.
  - repeat constructor. apply not_elem_of_nil.
Qed.

(** *** Plan resolution runs the methods *)

(** A method is in the executed list because its decorated function was
    entered and called the function it wraps. *)
Lemma executed_of_reaches (fs ex : list (Method State))
    (self self' : Workflow State) (f : Method State) (s : Step State) :
  executed_of fs self = Ok (ex, self') ->
  f ∈ ex ->
  method_step f = Some s ->
  exists c, reaches fs self s c /\ decorated s c = Ok (_executed, body s c).
Proof.
  revert ex self self'.
  induction fs as [|f0 fs IH]; intros ex self self'; simpl.
  - intros [= <- _] Hin. now apply elem_of_nil in Hin.
  - destruct (call f0 self) as [[r self1]|] eqn:Hcall; simpl; [|discriminate].
    destruct (executed_of fs self1) as [[ex1 self2]|] eqn:Hex; simpl;
      [|discriminate].
    intros [= <- _] Hin Hs.
    assert (Hlater : f ∈ ex1 ->
                     exists c, reaches (f0 :: fs) self s c
                               /\ decorated s c = Ok (_executed, body s c)).
    { intros Hin1. destruct (IH _ _ _ Hex Hin1 Hs) as (c & Hr & Hd).
      exists c. split; [|exact Hd]. eapply reaches_later; eassumption. }
    destruct r; simpl in Hin; [|now apply Hlater].
    apply elem_of_cons in Hin as [->|Hin]; [|now apply Hlater].
    destruct (call_cases _ _ _ _ Hcall)
      as [(t & d & Hent & Hdec) | (_ & Hr & _)]; [|discriminate].
    pose proof (enters_fields _ _ _ _ Hent) as (Ht & _).
    assert (t = s) as -> by congruence.
    exists d. split; [now apply reaches_here|].
    destruct (decorated_cases _ _ _ _ Hdec) as [[_ ->] | [Hr _]];
      [exact Hdec | discriminate].
Qed.

(** C10. When [_get_workflow] returns, every method of the plan is there
    because, during the resolution, its decorated function was entered (on
    the instance initialised from the first item and changed by the methods
    before it) and called the function it wraps; and the instance
    returned has the [short_circuit] and the [stats] it had before. *)
Theorem C10_resolution_runs_bodies (class_body : list (Step State))
    (traced : bool) (it : Iter) (self : Workflow State)
    (res : Chain * list (Method State) * Workflow State) :
  _get_workflow initialize_state it_next class_body traced it self = Ok res ->
  short_circuit (self_of res) = short_circuit self
  /\ stats (self_of res) = stats self
  /\ exists peek it',
       it_next it = Some (peek, it')
       /\ forall s,
            s ∈ steps_of (plan_of res) ->
            exists c,
              reaches (_all_wf_methods class_body traced)
                      (initialize_state peek (set_short_circuit false self))
                      s c
              /\ decorated s c = Ok (_executed, body s c).
Proof.
  unfold _get_workflow.
  destruct (it_next it) as [[peek it']|]; [|discriminate].
  destruct (executed_of _ _) as [[ex self']|] eqn:Hex; simpl; [|discriminate].
  intros [= <-]. unfold self_of, plan_of. simpl.
  split; [reflexivity|]. split; [reflexivity|].
  exists peek, it'. split; [reflexivity|].
  intros s Hs.
  assert (Hs' : s ∈ steps_of ex) by now destruct (debug self').
  apply steps_of_elem_of in Hs' as (f & Hf & Hfs).
  eapply executed_of_reaches; eassumption.
Qed.

(** *** The order of the plan *)

Lemma name_lt_trans (s t u : Step State) :
  name_lt s t -> name_lt t u -> name_lt s u.
Proof.
  unfold name_lt. intros H1 H2.
  apply String_as_OT.cmp_lt. apply String_as_OT.cmp_lt in H1, H2.
  eapply String_as_OT.lt_trans; eassumption.
Qed.

Lemma name_lt_asym (s t : Step State) : name_lt s t -> name_lt t s -> False.
Proof.
  unfold name_lt. intros H1 H2.
  rewrite String.compare_antisym, H2 in H1. discriminate.
Qed.

Lemma compare_Gt_name_lt (s t : Step State) :
  String.compare (name s) (name t) = Gt -> name_lt t s.
Proof.
  unfold name_lt. intros H. rewrite String.compare_antisym, H. reflexivity.
Qed.

Lemma StronglySorted_sublist {A : Type} (R : A -> A -> Prop) (l1 l2 : list A) :
  l1 `sublist_of` l2 -> StronglySorted R l2 -> StronglySorted R l1.
Proof.
  induction 1 as [|x l1 l2 Hsub IH|x l1 l2 Hsub IH]; intros Hs.
  - constructor.
  - apply StronglySorted_inv in Hs as [Hs Hall].
    constructor; [now apply IH|].
    apply Forall_forall. intros y Hy.
    apply (proj1 (Forall_forall _ _) Hall).
    eapply elem_of_sublist; eassumption.
  - apply StronglySorted_inv in Hs as [Hs _]. now apply IH.
Qed.

Lemma filter_sublist {A : Type} (p : A -> bool) (l : list A) :
  List.filter p l `sublist_of` l.
Proof.
  induction l as [|x l IH]; simpl; [constructor|].
  destruct (p x); now constructor.
Qed.

(** Binding a name keeps the namespace in [dir] order, each name once. *)
Lemma bind_name_sorted (s : Step State) (ns : list (Step State)) :
  StronglySorted name_lt ns -> StronglySorted name_lt (bind_name s ns).
Proof.
  induction ns as [|t ns IH]; simpl; intros Hs.
  - repeat constructor.
  - apply StronglySorted_inv in Hs as [Hs Hall].
    destruct (String.compare (name s) (name t)) eqn:Hc.
    + apply String.compare_eq_iff in Hc.
      constructor; [exact Hs|].
      eapply Forall_impl; [exact Hall|].
      intros u. unfold name_lt. now rewrite Hc.
    + constructor; [now constructor|].
      constructor; [exact Hc|].
      eapply Forall_impl; [exact Hall|].
      intros u. now apply name_lt_trans.
    + apply compare_Gt_name_lt in Hc.
      constructor; [now apply IH|].
      apply Forall_forall. intros u Hu.
      destruct (bind_name_elem_of _ _ _ Hu) as [->|Hu']; [exact Hc|].
      now apply (proj1 (Forall_forall _ _) Hall).
Qed.

Lemma class_dir_sorted (class_body : list (Step State)) :
  StronglySorted name_lt (class_dir class_body).
Proof.
  unfold class_dir.
  assert (H : forall acc,
             StronglySorted name_lt acc ->
             StronglySorted name_lt
               (fold_left (fun ns t => bind_name t ns) class_body acc)).
  { induction class_body as [|t cb IH]; intros acc Hacc; simpl; [exact Hacc|].
    apply IH. now apply bind_name_sorted. }
  apply H. constructor.
Qed.

Lemma getattr_wf_step (traced : bool) (s : Step State) :
  method_step (getattr_wf traced s) = Some s.
Proof. now destruct traced. Qed.

Lemma key_step (f : Method State) (s : Step State) :
  method_step f = Some s -> key f = step_priority s.
Proof. unfold key. now intros ->. Qed.

(** Inserting, ahead of a sorted list, a method whose name comes before
    all of its names. *)
Lemma insert_reverse_sorted (x : Method State) (l : list (Method State)) :
  Forall (method_name_lt x) l ->
  StronglySorted method_order l ->
  StronglySorted method_order (insert_reverse x l).
Proof.
  induction l as [|y l IH]; simpl; intros Hx Hs.
  - repeat constructor.
  - apply StronglySorted_inv in Hs as [Hs Hy].
    apply Forall_cons_1 in Hx as [Hxy Hx].
    destruct Hxy as (sx & sy & Hsx & Hsy & Hlt).
    rewrite (key_step x sx Hsx), (key_step y sy Hsy).
    destruct (Z.ltb_spec (step_priority sx) (step_priority sy)) as [Hk|Hk].
    + constructor; [now apply IH|].
      rewrite insert_reverse_Permutation.
      constructor; [|exact Hy].
      exists sy, sx. repeat split; try assumption. now left.
    + constructor; [now constructor|].
      assert (Hxy' : method_order x y).
      { exists sx, sy. repeat split; try assumption.
        unfold plan_order.
        destruct (Z.eq_dec (step_priority sx) (step_priority sy));
          [right; now split | left; lia]. }
      constructor; [exact Hxy'|].
      apply Forall_forall. intros z Hz.
      pose proof (proj1 (Forall_forall _ _) Hy z Hz)
        as (sy' & sz & Hsy' & Hsz & Hyz).
      pose proof (proj1 (Forall_forall _ _) Hx z Hz)
        as (sx' & sz' & Hsx' & Hsz' & Hxz).
      assert (sy' = sy) as -> by congruence.
      assert (sx' = sx) as -> by congruence.
      assert (sz' = sz) as -> by congruence.
      exists sx, sz. repeat split; try assumption.
      unfold plan_order in *.
      destruct (Z.eq_dec (step_priority sx) (step_priority sz));
        [right; now split | left; destruct Hyz as [?|[? _]]; lia].
Qed.

(** [sorted(..., reverse=True)] of methods listed by name: a higher
    priority first, then by name. *)
Lemma sorted_reverse_sorted (l : list (Method State)) :
  StronglySorted method_name_lt l ->
  StronglySorted method_order (sorted_reverse l).
Proof.
  induction l as [|x l IH]; simpl; intros Hs; [constructor|].
  apply StronglySorted_inv in Hs as [Hs Hx].
  apply insert_reverse_sorted; [|now apply IH].
  now rewrite sorted_reverse_Permutation.
Qed.

Lemma map_getattr_wf_sorted (traced : bool) (l : list (Step State)) :
  StronglySorted name_lt l ->
  StronglySorted method_name_lt (map (getattr_wf traced) l).
Proof.
  induction 1 as [|s l Hs IH Hall]; simpl; constructor; [exact IH|].
  apply Forall_forall. intros g Hg.
  apply list_elem_of_In, in_map_iff in Hg as (t & <- & Ht).
  exists s, t. rewrite !getattr_wf_step. repeat split.
  apply (proj1 (Forall_forall _ _) Hall). now apply list_elem_of_In.
Qed.

Lemma _all_wf_methods_sorted (class_body : list (Step State)) (traced : bool) :
  StronglySorted method_order (_all_wf_methods class_body traced).
Proof.
  unfold _all_wf_methods.
  apply sorted_reverse_sorted, map_getattr_wf_sorted.
  eapply StronglySorted_sublist; [apply filter_sublist|].
  apply class_dir_sorted.
Qed.

Lemma steps_of_sorted (fs : list (Method State)) :
  StronglySorted method_order fs -> StronglySorted plan_order (steps_of fs).
Proof.
  induction 1 as [|f fs Hs IH Hall]; [constructor|].
  rewrite steps_of_cons.
  destruct (method_step f) as [s|] eqn:Hf; [|exact IH].
  constructor; [exact IH|].
  apply Forall_forall. intros t Ht.
  apply steps_of_elem_of in Ht as (g & Hg & Hgt).
  pose proof (proj1 (Forall_forall _ _) Hall g Hg) as (s' & t' & Hs' & Ht' & Ho).
  congruence.
Qed.

(** *** The declaration order does not matter *)

Lemma bind_name_Permutation (s : Step State) (ns : list (Step State)) :
  name s ∉ map name ns -> bind_name s ns ≡ₚ s :: ns.
Proof.
  induction ns as [|t ns IH]; simpl; intros Hs; [reflexivity|].
  apply not_elem_of_cons in Hs as [Hst Hs].
  destruct (String.compare (name s) (name t)) eqn:Hc.
  - now apply String.compare_eq_iff in Hc.
  - reflexivity.
  - rewrite (IH Hs). apply perm_swap.
Qed.

Lemma class_dir_Permutation (class_body : list (Step State)) :
  NoDup (map name class_body) -> class_dir class_body ≡ₚ class_body.
Proof.
  unfold class_dir.
  assert (H : forall acc,
             NoDup (map name (acc ++ class_body)) ->
             fold_left (fun ns t => bind_name t ns) class_body acc
             ≡ₚ acc ++ class_body).
  { induction class_body as [|t cb IH]; intros acc Hnd; simpl.
    - now rewrite app_nil_r.
    - assert (Hperm : bind_name t acc ≡ₚ t :: acc).
      { apply bind_name_Permutation.
        rewrite map_app in Hnd. simpl in Hnd.
        apply NoDup_app in Hnd as (_ & Hdis & _).
        intros Hin. apply (Hdis _ Hin). apply list_elem_of_here. }
      rewrite IH.
      + rewrite Hperm. simpl. now rewrite Permutation_middle.
      + rewrite Hperm. simpl.
        assert (Hp : map name (acc ++ t :: cb)
                     ≡ₚ name t :: map name (acc ++ cb)).
        { rewrite !map_app. simpl. now rewrite Permutation_middle. }
        now rewrite <- Hp. }
  intros Hnd. now apply (H []).
Qed.

Lemma class_dir_declaration_order (cb cb' : list (Step State)) :
  NoDup (map name cb) -> cb ≡ₚ cb' -> class_dir cb = class_dir cb'.
Proof.
  intros Hnd Hperm.
  apply (StronglySorted_unique_strong name_lt).
  - intros x y _ _ Hxy Hyx. destruct (name_lt_asym x y Hxy Hyx).
  - apply class_dir_sorted.
  - apply class_dir_sorted.
  - rewrite !class_dir_Permutation; [exact Hperm | | exact Hnd].
    now rewrite <- Hperm.
Qed.

(** C3, as the code has it. The methods of a resolved plan stand by
    priority, the higher first, and among equal priorities by name, the
    smaller first ([dir] lists names sorted, and the sort by priority is
    stable); the order in which the class body declares them plays no part:
    a class body with the same methods, each name once, in any other order
    resolves to the same plan. *)
Theorem C3_plan_order_by_priority_then_name (class_body : list (Step State))
    (traced : bool) (it : Iter) (self : Workflow State)
    (res : Chain * list (Method State) * Workflow State) :
  _get_workflow initialize_state it_next class_body traced it self = Ok res ->
  StronglySorted plan_order (steps_of (plan_of res))
  /\ forall class_body',
       NoDup (map name class_body) ->
       class_body ≡ₚ class_body' ->
       _get_workflow initialize_state it_next class_body' traced it self
       = Ok res.
Proof.
  intros Hres. split.
  - revert Hres. unfold _get_workflow.
    destruct (it_next it) as [[peek it']|]; [|discriminate].
    destruct (executed_of _ _) as [[ex self']|] eqn:Hex; simpl; [|discriminate].
    intros [= <-]. unfold plan_of. simpl.
    assert (Hs : StronglySorted plan_order (steps_of ex)).
    { apply steps_of_sorted.
      eapply StronglySorted_sublist; [eapply executed_of_sublist, Hex|].
      apply _all_wf_methods_sorted. }
    now destruct (debug self').
  - intros cb' Hnd Hperm. rewrite <- Hres.
    unfold _get_workflow, _all_wf_methods.
    now rewrite (class_dir_declaration_order class_body cb' Hnd Hperm).
Qed.

(** *** Runs that raise nothing *)

Lemma decorated_returns (s : Step State) (self : Workflow State) :
  step_safe s = true ->
  exists r self', decorated s self = Ok (r, self').
Proof.
  unfold step_safe, decorated, no_requirements_decorated, requires_decorated.
  destruct (decorator s) as [|rq]; [eauto|].
  intros Hsafe.
  destruct (do_short_circuit rq self); [eauto|].
  destruct (match valid_data rq with Some p => _ | None => _ end); [eauto|].
  destruct (req_option rq) as [k|]; [|eauto].
  destruct (options self !! k) as [v|]; [|eauto].
  destruct (values rq); try discriminate; simpl; [eauto|].
  destruct (set_contains v l); eauto.
Qed.

Lemma executed_of_returns (fs : list (Method State)) (self : Workflow State) :
  Forall (fun f => method_safe f = true) fs ->
  exists ex self', executed_of fs self = Ok (ex, self').
Proof.
  intros Hfs. revert self.
  induction Hfs as [|f fs Hf _ IH]; intros self; simpl; [eauto|].
  assert (Hcall : exists r self1, call f self = Ok (r, self1)).
  { destruct f as [s|s|]; simpl in *;
      [now apply decorated_returns | discriminate | eauto]. }
  destruct Hcall as (r & self1 & ->). simpl.
  destruct (IH self1) as (ex & self2 & ->). simpl. eauto.
Qed.

Lemma _all_wf_methods_safe (class_body : list (Step State)) :
  (forall s, s ∈ class_body -> step_safe s = true) ->
  Forall (fun f => method_safe f = true) (_all_wf_methods class_body false).
Proof.
  intros Hsafe. apply Forall_forall. intros f Hf.
  apply _all_wf_methods_elem_of in Hf as (s & Hs & -> & _).
  now apply Hsafe.
Qed.

(** Without trace wrappers, and with matchers that are [anything] or sets,
    plan resolution on a stream that has a first item returns. *)
Lemma _get_workflow_returns (class_body : list (Step State)) (it it' : Iter)
    (peek : Item) (self : Workflow State) :
  it_next it = Some (peek, it') ->
  (forall s, s ∈ class_body -> step_safe s = true) ->
  exists res,
    _get_workflow initialize_state it_next class_body false it self = Ok res.
Proof.
  intros Hnext Hsafe. unfold _get_workflow. rewrite Hnext.
  destruct (executed_of_returns _
              (initialize_state peek (set_short_circuit false self))
              (_all_wf_methods_safe class_body Hsafe))
    as (ex & self' & ->).
  simpl. eauto.
Qed.

(** Such a run raises nothing but the [StopIteration] that ends it. *)
Lemma safe_run_raises_StopIteration_only (class_body : list (Step State))
    (success_callback fail_callback : option (Workflow State -> State))
    (it : Iter) (self : Workflow State) (n : nat) (e : exn) :
  (forall s, s ∈ class_body -> step_safe s = true) ->
  raised e ∈ events initialize_state it_next class_body false success_callback
                    fail_callback n (__call__ it self) ->
  e = StopIteration.
Proof.
  intros Hsafe.
  assert (Hloop : forall n c workflow self,
             Forall (fun f => method_safe f = true) workflow ->
             raised e ∈ events initialize_state it_next class_body false
                               success_callback fail_callback n
                               (gen_in_loop c workflow self) ->
             e = StopIteration).
  { clear n it self. intros n.
    induction n as [|n IH]; intros c workflow self Hw.
    - intros H. now apply elem_of_nil in H.
    - rewrite events_S, step_in_loop.
      destruct (chain_next it_next c) as [[item c']|].
      + destruct (executed_of_returns workflow
                    (initialize_state item (set_failed false self)) Hw)
          as (ex & self' & ->).
        cbn [fst snd is_raised]. intros H.
        apply elem_of_cons in H as [H|H]; [discriminate|].
        now apply (IH c' workflow self').
      + cbn [fst snd is_raised]. intros H.
        apply list_elem_of_singleton in H. congruence. }
  pose proof (_all_wf_methods_safe class_body Hsafe) as Hall.
  destruct n as [|n]; [intros H; now apply elem_of_nil in H|].
  rewrite events_S, step_created.
  unfold _get_workflow.
  destruct (it_next it) as [[peek it']|].
  - destruct (executed_of_returns _
                (initialize_state peek (set_short_circuit false self)) Hall)
      as (ex & self' & Hex).
    rewrite Hex. simpl.
    intros H. apply elem_of_cons in H as [H|H]; [discriminate|].
    revert H. apply Hloop.
    assert (Hex' : Forall (fun f => method_safe f = true) ex).
    { apply Forall_forall. intros f Hf.
      apply (proj1 (Forall_forall _ _) Hall).
      eapply elem_of_sublist; [exact Hf|].
      eapply executed_of_sublist; exact Hex. }
    destruct (debug self'); [now constructor | exact Hex'].
  - simpl. intros H. apply list_elem_of_singleton in H. congruence.
Qed.

(** *** The empty stream *)

(** C7, as the code has it. On an exhausted iterator, the first advance of
    the generator raises [StopIteration] out of [_get_workflow]; for the
    caller this is the end of the iteration, with no element. *)
Theorem C7_empty_stream_StopIteration (class_body : list (Step State))
    (traced : bool) (success_callback fail_callback : option (Workflow State -> State))
    (it : Iter) (self : Workflow State) (fuel : nat) :
  it_next it = None ->
  gen_step initialize_state it_next class_body traced success_callback
           fail_callback (__call__ it self)
  = (raised StopIteration, gen_finished)
  /\ gen_next initialize_state it_next class_body traced success_callback
              fail_callback (S fuel) (__call__ it self)
     = Some (Raise StopIteration, gen_finished)
  /\ py_list initialize_state it_next class_body traced success_callback
             fail_callback (S fuel) (__call__ it self)
     = Some (Ok []).
Proof.
  intros Hnone.
  repeat split; simpl; unfold _get_workflow; now rewrite Hnone.
Qed.

End Properties.

(** C8 at [values='abc'] and the option set to ['b']. *)
Lemma C8_witness :
  requires_decorated
    (requires_init true (Some "opt") (arg_scalar (VStr "abc")) None)
    (body OnOption.wf_str) (OnOption.with_opt (VStr "b"))
  = Ok (if str_contains "b" "abc"
        then (_executed, body OnOption.wf_str (OnOption.with_opt (VStr "b")))
        else (returned_None, OnOption.with_opt (VStr "b"))).
Proof.
  apply (C8_str_values_substring _ _ _ "opt" "abc" "b");
    [reflexivity | reflexivity | reflexivity | reflexivity | discriminate].
Defined.

(** The method runs although ['b' == 'abc'] is false. *)
Lemma C8_runs_on_other_string :
  decorated OnOption.wf_str (OnOption.with_opt (VStr "b"))
  = Ok (_executed, body OnOption.wf_str (OnOption.with_opt (VStr "b")))
  /\ py_eq (VStr "b") (VStr "abc") = false.
Proof. split; reflexivity. Qed.

(** A value that is not a string cannot even be tested. *)
Lemma str_values_int_raises :
  decorated OnOption.wf_str (OnOption.with_opt (VInt 5)) = Raise TypeError.
Proof. reflexivity. Qed.

(** C9 at [options={'opt': None}]. *)
Lemma C9_witness :
  requires_decorated
    (requires_init true (Some "opt") arg_not_none None)
    (body OnOption.wf_not_none) (OnOption.with_opt VNone)
  = Raise TypeError.
Proof.
  apply (C9_not_none_on_None_raises _ _ _ "opt");
    [reflexivity | reflexivity | reflexivity | reflexivity | discriminate].
Defined.

(** C7 on [iter([])]. *)
Lemma C7_witness :
  gen_step MyWorkflow.initialize_state list_next Failing.class_body false
           None None (__call__ [] Failing.self)
  = (raised StopIteration, gen_finished)
  /\ gen_next MyWorkflow.initialize_state list_next Failing.class_body false
              None None 1 (__call__ [] Failing.self)
     = Some (Raise StopIteration, gen_finished)
  /\ py_list MyWorkflow.initialize_state list_next Failing.class_body false
             None None 1 (__call__ [] Failing.self)
     = Some (Ok []).
Proof.
  apply (C7_empty_stream_StopIteration MyWorkflow.initialize_state list_next).
  reflexivity.
Defined.

(** C7, refuted as stated. The empty stream and a stream whose only item
    fails (and is dropped) give the caller the same thing: the first
    [next()] raises [StopIteration], and [list()] returns [[]]. *)
Lemma C7_counterexample :
  gen_next MyWorkflow.initialize_state list_next Failing.class_body false
           None None 3 (__call__ [] Failing.self)
  = Some (Raise StopIteration, gen_finished)
  /\ gen_next MyWorkflow.initialize_state list_next Failing.class_body false
              None None 3 (__call__ [7] Failing.self)
     = Some (Raise StopIteration, gen_finished)
  /\ py_list MyWorkflow.initialize_state list_next Failing.class_body false
             None None 3 (__call__ [] Failing.self)
     = py_list MyWorkflow.initialize_state list_next Failing.class_body false
               None None 3 (__call__ [7] Failing.self).
Proof. repeat split; vm_compute; reflexivity. Qed.

(** C3 on the docstring workflow. *)
Lemma C3_witness :
  _get_workflow MyWorkflow.initialize_state list_next MyWorkflow.class_body
                false [3; 4] MyWorkflow.self_5
  = Ok MyWorkflow.resolved_5
  /\ (StronglySorted plan_order (steps_of (plan_of MyWorkflow.resolved_5))
      /\ forall class_body',
           NoDup (map name MyWorkflow.class_body) ->
           MyWorkflow.class_body ≡ₚ class_body' ->
           _get_workflow MyWorkflow.initialize_state list_next class_body'
                         false [3; 4] MyWorkflow.self_5
           = Ok MyWorkflow.resolved_5).
Proof.
  split; [vm_compute; reflexivity|].
  apply (C3_plan_order_by_priority_then_name MyWorkflow.initialize_state
           list_next MyWorkflow.class_body false [3; 4] MyWorkflow.self_5).
  vm_compute; reflexivity.
Defined.

(** C3, refuted as stated. [wf_b] is declared before [wf_a], with the same
    priority, and the resolved plan has [wf_a] before [wf_b]. *)
Lemma C3_counterexample :
  match _get_workflow MyWorkflow.initialize_state list_next
                      TieBreak.class_body false [1] TieBreak.self with
  | Ok res =>
      steps_of (plan_of res) = [TieBreak.wf_a; TieBreak.wf_b]
      /\ ~ ties_in_declaration_order TieBreak.class_body
                                     (steps_of (plan_of res))
  | Raise _ => False
  end.
Proof.
  vm_compute _get_workflow. unfold plan_of. cbn [fst snd steps_of omap].
  split; [reflexivity|].
  intros Hties.
  destruct (Hties TieBreak.wf_b TieBreak.wf_a) as (i & j & Hi & Hj & Hlt).
  - reflexivity.
  - exists 0%nat, 1%nat. repeat split. lia.
  - apply list_elem_of_further, list_elem_of_here.
  - apply list_elem_of_here.
  - destruct i as [|[|i]]; simpl in Hi; try discriminate;
      destruct j as [|[|j]]; simpl in Hj; try discriminate; try lia.
Qed.

(** On the instance the failing workflow is left with once [wf_fail] has
    run on the item 7, [wf_gated] is skipped and [wf_always] still runs. *)
Lemma Failing_gated_skipped_always_runs :
  decorated Failing.wf_gated Failing.failed_self
  = Ok (returned_None, Failing.failed_self)
  /\ decorated Failing.wf_always Failing.failed_self
     = Ok (_executed, body Failing.wf_always Failing.failed_self).
Proof. split; reflexivity. Qed.

(** C5 on the docstring workflow without the option ['double']. *)
Lemma C5_witness :
  (forall res,
      _get_workflow MyWorkflow.initialize_state list_next MyWorkflow.class_body
                    false [3; 4] MyWorkflow.self_10
      = Ok res ->
      MyWorkflow.wf_double ∉ steps_of (plan_of res))
  /\ Forall (fun e => MyWorkflow.wf_double ∉ steps_of (event_executed e))
            (events MyWorkflow.initialize_state list_next MyWorkflow.class_body
                    false None None 4 (__call__ [3; 4] MyWorkflow.self_10)).
Proof.
  apply (C5_absent_option_never_planned MyWorkflow.initialize_state list_next
           MyWorkflow.class_body false None None [3; 4] MyWorkflow.self_10
           MyWorkflow.wf_double
           (requires_init true (Some "double") arg_anything None)
           "double" 4).
  - reflexivity.
  - reflexivity.
  - reflexivity.
  - reflexivity.
  - intros t x Hin.
    apply elem_of_cons in Hin as [->|Hin];
      [reflexivity|
       apply elem_of_cons in Hin as [->|Hin];
       [reflexivity|
        apply elem_of_cons in Hin as [->|Hin];
        [|now apply elem_of_nil in Hin]]].
    simpl. now destruct (options x !! "sub_value" ≫= int_value).
Defined.

(** C10 on the docstring workflow. *)
Lemma C10_witness :
  _get_workflow MyWorkflow.initialize_state list_next MyWorkflow.class_body
                false [3; 4] MyWorkflow.self_5
  = Ok MyWorkflow.resolved_5
  /\ (short_circuit (self_of MyWorkflow.resolved_5)
      = short_circuit MyWorkflow.self_5
      /\ stats (self_of MyWorkflow.resolved_5) = stats MyWorkflow.self_5
      /\ exists peek it',
           list_next [3; 4] = Some (peek, it')
           /\ forall s,
                s ∈ steps_of (plan_of MyWorkflow.resolved_5) ->
                exists c,
                  reaches (_all_wf_methods MyWorkflow.class_body false)
                          (MyWorkflow.initialize_state peek
                             (set_short_circuit false MyWorkflow.self_5))
                          s c
                  /\ decorated s c = Ok (_executed, body s c)).
Proof.
  split; [vm_compute; reflexivity|].
  apply (C10_resolution_runs_bodies MyWorkflow.initialize_state list_next
           MyWorkflow.class_body false [3; 4] MyWorkflow.self_5).
  vm_compute; reflexivity.
Defined.

(** The resolution has left in [state] what the three functions made of
    the first item: (3 * 3) * 2 - 5. *)
Lemma resolution_changes_state :
  state (self_of MyWorkflow.resolved_5) = 13
  /\ state (MyWorkflow.initialize_state 3 MyWorkflow.self_5) = 3.
Proof. split; reflexivity. Qed.

(* ===================================================================== *)
(** ** Further properties *)
(* ===================================================================== *)

Section FurtherProperties.

Context {Item State Iter : Type}.
Context (initialize_state : Item -> Workflow State -> Workflow State).
Context (it_next : Iter -> option (Item * Iter)).

(** *** Unfolding a run *)

Lemma events_created (class_body : list (Step State)) (traced : bool)
    (success_callback fail_callback : option (Workflow State -> State))
    (n : nat) (it : Iter) (self : Workflow State) :
  events initialize_state it_next class_body traced success_callback
         fail_callback (S n) (__call__ it self)
  = match _get_workflow initialize_state it_next class_body traced it self with
    | Raise e => [raised e]
    | Ok (c, workflow, self') =>
        planned workflow
        :: events initialize_state it_next class_body traced success_callback
                  fail_callback n (gen_in_loop c workflow self')
    end.
Proof.
  rewrite events_S, step_created.
  destruct (_get_workflow _ _ _ _ _ _) as [[[c workflow] self']|e];
    reflexivity.
Qed.

Lemma events_in_loop (class_body : list (Step State)) (traced : bool)
    (success_callback fail_callback : option (Workflow State -> State))
    (n : nat) (c : Chain) (workflow : list (Method State))
    (self : Workflow State) :
  events initialize_state it_next class_body traced success_callback
         fail_callback (S n) (gen_in_loop c workflow self)
  = match chain_next it_next c with
    | None => [raised StopIteration]
    | Some (item, c') =>
        match executed_of workflow
                (initialize_state item (set_failed false self)) with
        | Raise e => [raised e]
        | Ok (ex, self') =>
            processed item ex self'
              (if failed self' then
                 match fail_callback with
                 | Some fc => Some (fc self')
                 | None => None
                 end
               else Some (callback_or_state success_callback self'))
            :: events initialize_state it_next class_body traced
                      success_callback fail_callback n
                      (gen_in_loop c' workflow self')
        end
    end.
Proof.
  rewrite events_S, step_in_loop.
  destruct (chain_next it_next c) as [[item c']|]; [|reflexivity].
  destruct (executed_of _ _) as [[ex self']|e]; reflexivity.
Qed.

(** A property of the instance that the trace wrapper and the functions of
    the methods keep is kept by a sequence of calls. *)
Lemma enters_shape (f : Method State) (self : Workflow State)
    (s : Step State) (c : Workflow State) :
  enters f self = Some (s, c) ->
  method_step f = Some s /\ (c = self \/ exists t, c = set_debug_trace t self).
Proof.
  destruct f as [u|u|]; simpl.
  - intros [= <- <-]. split; [reflexivity | now left].
  - unfold _debug_trace_wrapper. destruct (debug_trace self) as [t|];
      [|discriminate].
    intros [= <- <-]. split; [reflexivity | right; eauto].
  - discriminate.
Qed.

Lemma call_invariant (P : Workflow State -> Prop) (f : Method State)
    (self self' : Workflow State) (r : Ret) :
  (forall x t, P x -> P (set_debug_trace t x)) ->
  (forall s x, method_step f = Some s -> P x -> P (body s x)) ->
  P self ->
  call f self = Ok (r, self') ->
  P self'.
Proof.
  intros Htrace Hbody HP Hcall.
  destruct (call_cases _ _ _ _ Hcall)
    as [(s & c & Hin & Hdec) | (_ & _ & ->)]; [|now apply Htrace].
  apply enters_shape in Hin as [Hs Hc].
  assert (HPc : P c) by (destruct Hc as [->|[t ->]]; [exact HP | now apply Htrace]).
  destruct (decorated_cases _ _ _ _ Hdec) as [[_ ->] | [_ ->]];
    [now apply Hbody | exact HPc].
Qed.

Lemma executed_of_invariant (P : Workflow State -> Prop)
    (fs ex : list (Method State)) (self self' : Workflow State) :
  (forall x t, P x -> P (set_debug_trace t x)) ->
  (forall f s x, f ∈ fs -> method_step f = Some s -> P x -> P (body s x)) ->
  P self ->
  executed_of fs self = Ok (ex, self') ->
  P self'.
Proof.
  intros Htrace. revert ex self self'.
  induction fs as [|f fs IH]; intros ex self self' Hbody HP; simpl.
  - now intros [= _ <-].
  - destruct (call f self) as [[r self1]|] eqn:Hcall; simpl; [|discriminate].
    destruct (executed_of fs self1) as [[ex1 self2]|] eqn:Hex; simpl;
      [|discriminate].
    intros [= _ <-].
    apply (IH ex1 self1 self2); [| |exact Hex].
    + intros g s x Hg. apply Hbody. now apply list_elem_of_further.
    + eapply call_invariant; [exact Htrace | | exact HP | exact Hcall].
      intros s x. apply Hbody. apply list_elem_of_here.
Qed.

Lemma reaches_invariant (P : Workflow State -> Prop)
    (fs : list (Method State)) (self : Workflow State) (s : Step State)
    (c : Workflow State) :
  (forall x t, P x -> P (set_debug_trace t x)) ->
  (forall f u x, f ∈ fs -> method_step f = Some u -> P x -> P (body u x)) ->
  P self ->
  reaches fs self s c ->
  P c.
Proof.
  intros Htrace Hbody HP Hreach.
  induction Hreach as [f fs self s c Hin | f fs self r self' s c Hcall _ IH].
  - apply enters_shape in Hin as [_ [->|[t ->]]];
      [exact HP | now apply Htrace].
  - apply IH.
    + intros g u x Hg. apply Hbody. now apply list_elem_of_further.
    + eapply call_invariant; [exact Htrace | | exact HP | exact Hcall].
      intros u x. apply Hbody. apply list_elem_of_here.
Qed.

Lemma reaches_step (fs : list (Method State)) (self : Workflow State)
    (s : Step State) (c : Workflow State) :
  reaches fs self s c -> s ∈ steps_of fs.
Proof.
  induction 1 as [f fs self s c Hin | f fs self r self' s c _ _ IH].
  - apply enters_shape in Hin as [Hs _].
    rewrite steps_of_cons, Hs. apply list_elem_of_here.
  - rewrite steps_of_cons. destruct (method_step f);
      [now apply list_elem_of_further | exact IH].
Qed.

(** *** Which methods are collected *)

Lemma steps_of_map_getattr_wf (traced : bool) (l : list (Step State)) :
  steps_of (map (getattr_wf traced) l) = l.
Proof.
  induction l as [|s l IH]; [reflexivity|].
  cbn [map]. rewrite steps_of_cons, getattr_wf_step. now f_equal.
Qed.

Lemma filter_Permutation {A : Type} (p : A -> bool) (l l' : list A) :
  l ≡ₚ l' -> List.filter p l ≡ₚ List.filter p l'.
Proof.
  induction 1 as [|x l l' _ IH|x y l|l l' l'' _ IH1 _ IH2]; simpl.
  - reflexivity.
  - destruct (p x); [now constructor | exact IH].
  - destruct (p x), (p y); try reflexivity. apply perm_swap.
  - now rewrite IH1.
Qed.

(** X1. The methods [_all_wf_methods] returns are, in another order, the
    methods of the class body whose names start with ['wf_'], each once:
    sorting drops none and repeats none, and no other method is taken. *)
Theorem _all_wf_methods_collects (class_body : list (Step State))
    (traced : bool) :
  NoDup (map name class_body) ->
  steps_of (_all_wf_methods class_body traced)
  ≡ₚ List.filter startswith_wf class_body.
Proof.
  intros Hnd. unfold _all_wf_methods, steps_of.
  rewrite sorted_reverse_Permutation.
  fold (steps_of (map (getattr_wf traced)
                      (List.filter startswith_wf (class_dir class_body)))).
  rewrite steps_of_map_getattr_wf.
  apply filter_Permutation. now apply class_dir_Permutation.
Qed.

Lemma _all_wf_methods_startswith (class_body : list (Step State))
    (traced : bool) (f : Method State) (s : Step State) :
  f ∈ _all_wf_methods class_body traced ->
  method_step f = Some s ->
  s ∈ class_body /\ startswith_wf s = true.
Proof.
  unfold _all_wf_methods. rewrite sorted_reverse_Permutation.
  intros Hf Hs. apply list_elem_of_In, in_map_iff in Hf as (u & <- & Hu).
  rewrite getattr_wf_step in Hs. injection Hs as ->.
  apply filter_In in Hu as [Hu Hp]. split; [|exact Hp].
  apply class_dir_elem_of. now apply list_elem_of_In.
Qed.

Lemma plan_sublist (class_body : list (Step State)) (traced : bool)
    (it : Iter) (self : Workflow State)
    (res : Chain * list (Method State) * Workflow State) :
  _get_workflow initialize_state it_next class_body traced it self = Ok res ->
  steps_of (plan_of res)
  `sublist_of` steps_of (_all_wf_methods class_body traced).
Proof.
  unfold _get_workflow.
  destruct (it_next it) as [[peek it']|]; [|discriminate].
  destruct (executed_of _ _) as [[ex self']|] eqn:Hex; simpl; [|discriminate].
  intros [= <-]. unfold plan_of. simpl.
  apply executed_of_sublist in Hex.
  assert (Hsub : steps_of ex
                 `sublist_of` steps_of (_all_wf_methods class_body traced)).
  { clear -Hex. induction Hex as [|f l1 l2 _ IH|f l1 l2 _ IH].
    - constructor.
    - rewrite !steps_of_cons. destruct (method_step f); [now constructor|exact IH].
    - rewrite steps_of_cons. destruct (method_step f); [now constructor|exact IH]. }
  now destruct (debug self').
Qed.

(** X2. In every turn of a run, the methods whose functions are called are
    taken from the plan, in the order of the plan, and all are methods of
    the class body whose names start with ['wf_']. *)
Theorem run_executes_plan_methods_only (class_body : list (Step State))
    (traced : bool)
    (success_callback fail_callback : option (Workflow State -> State))
    (it : Iter) (self : Workflow State)
    (res : Chain * list (Method State) * Workflow State) (n : nat) :
  _get_workflow initialize_state it_next class_body traced it self = Ok res ->
  Forall (fun e =>
            event_executed e `sublist_of` plan_of res
            /\ forall s, s ∈ steps_of (event_executed e) ->
                         s ∈ class_body /\ startswith_wf s = true)
         (events initialize_state it_next class_body traced success_callback
                 fail_callback n (__call__ it self)).
Proof.
  intros Hres.
  assert (Hplan : forall s, s ∈ steps_of (plan_of res) ->
                            s ∈ class_body /\ startswith_wf s = true).
  { intros s Hs.
    pose proof (elem_of_sublist _ _ _ Hs (plan_sublist _ _ _ _ _ Hres)) as Hall.
    apply steps_of_elem_of in Hall as (f & Hf & Hfs).
    eapply _all_wf_methods_startswith; eassumption. }
  destruct n as [|n]; [constructor|].
  rewrite events_created, Hres. destruct res as [[c workflow] self'].
  unfold plan_of in *. simpl in *.
  constructor.
  - split; [apply sublist_nil_l|]. intros s Hs. now apply elem_of_nil in Hs.
  - eapply Forall_impl;
      [apply (loop_executed_in_plan initialize_state it_next)|].
    intros e Hsub. simpl in Hsub. split; [exact Hsub|].
    intros s Hs. apply Hplan.
    apply steps_of_elem_of in Hs as (f & Hf & Hfs).
    apply steps_of_elem_of. exists f. split; [|exact Hfs].
    eapply elem_of_sublist; eassumption.
Qed.

(** *** The sample decides *)

Lemma steps_of_sublist (l1 l2 : list (Method State)) :
  l1 `sublist_of` l2 -> steps_of l1 `sublist_of` steps_of l2.
Proof.
  induction 1 as [|f l1 l2 _ IH|f l1 l2 _ IH].
  - constructor.
  - rewrite !steps_of_cons. destruct (method_step f);
      [now constructor | exact IH].
  - rewrite steps_of_cons. destruct (method_step f);
      [now constructor | exact IH].
Qed.

Lemma plan_order_irrefl (s : Step State) : ~ plan_order s s.
Proof.
  intros [Hlt | [_ Hn]]; [lia | exact (name_lt_asym s s Hn Hn)].
Qed.

Lemma StronglySorted_irrefl_NoDup {A : Type} (R : A -> A -> Prop)
    (l : list A) :
  (forall x, ~ R x x) -> StronglySorted R l -> NoDup l.
Proof.
  intros Hirr. induction 1 as [|x l _ IH Hall]; constructor; [|exact IH].
  intros Hx. apply (Hirr x). now apply (proj1 (Forall_forall _ _) Hall).
Qed.

Lemma _all_wf_methods_NoDup (class_body : list (Step State)) (traced : bool) :
  NoDup (steps_of (_all_wf_methods class_body traced)).
Proof.
  apply (StronglySorted_irrefl_NoDup plan_order); [apply plan_order_irrefl|].
  apply steps_of_sorted, _all_wf_methods_sorted.
Qed.

Lemma enters_call (f : Method State) (self : Workflow State)
    (s : Step State) (c : Workflow State) :
  enters f self = Some (s, c) -> call f self = decorated s c.
Proof.
  destruct f as [u|u|]; simpl.
  - now intros [= <- <-].
  - destruct (_debug_trace_wrapper (name u) self) as [self'|];
      [|discriminate].
    now intros [= <- <-].
  - discriminate.
Qed.

(** Among methods that are all different, a method is in the executed list
    exactly when the one call made of it returned [_executed]. *)
Lemma executed_of_iff (fs ex : list (Method State))
    (self self' : Workflow State) (s : Step State) (c c' : Workflow State)
    (r : Ret) :
  NoDup (steps_of fs) ->
  executed_of fs self = Ok (ex, self') ->
  reaches fs self s c ->
  decorated s c = Ok (r, c') ->
  s ∈ steps_of ex <-> r = _executed.
Proof.
  intros Hnd Hex Hreach Hdec. revert ex self' Hnd Hex.
  induction Hreach as [f fs self s c Hin | f fs self r0 self1 s c Hcall Hr IH];
    intros ex self' Hnd; simpl.
  - rewrite (enters_call _ _ _ _ Hin), Hdec. simpl.
    destruct (executed_of fs c') as [[ex1 self2]|] eqn:Hex1; simpl;
      [|discriminate].
    intros [= <- _].
    apply enters_shape in Hin as [Hs _].
    rewrite steps_of_cons, Hs in Hnd. apply NoDup_cons in Hnd as [Hnotin _].
    destruct r; cbn [is_executed].
    + split; [reflexivity|]. intros _.
      rewrite steps_of_cons, Hs. apply list_elem_of_here.
    + split; [|discriminate]. intros Hs1. exfalso. apply Hnotin.
      eapply elem_of_sublist; [exact Hs1|].
      apply steps_of_sublist. eapply executed_of_sublist; exact Hex1.
  - rewrite Hcall. simpl.
    destruct (executed_of fs self1) as [[ex1 self2]|] eqn:Hex1; simpl;
      [|discriminate].
    intros [= <- _].
    assert (Hnd' : NoDup (steps_of fs)).
    { rewrite steps_of_cons in Hnd. destruct (method_step f);
        [now apply NoDup_cons in Hnd as [_ ?] | exact Hnd]. }
    rewrite <- (IH Hdec ex1 self2 Hnd' eq_refl).
    destruct (is_executed r0); [|reflexivity].
    rewrite steps_of_cons. destruct (method_step f) as [u|] eqn:Hu;
      [|reflexivity].
    rewrite steps_of_cons, Hu in Hnd. apply NoDup_cons in Hnd as [Hnotin _].
    split.
    + intros Hs. apply elem_of_cons in Hs as [->|Hs]; [|exact Hs].
      exfalso. apply Hnotin. eapply reaches_step; exact Hr.
    + intros Hs. now apply list_elem_of_further.
Qed.

(** X3. The plan holds exactly the methods whose function ran on the first
    item: a method is in the plan if and only if the call made of it during
    resolution returned [_executed]; and a method that returned [None]
    there (its data condition failing on the first item, say) executes in
    no turn of the run, for no later item. *)
Theorem sample_decides_the_plan (class_body : list (Step State))
    (traced : bool)
    (success_callback fail_callback : option (Workflow State -> State))
    (it it' : Iter) (peek : Item) (self : Workflow State)
    (res : Chain * list (Method State) * Workflow State)
    (s : Step State) (c c' : Workflow State) (r : Ret) (n : nat) :
  it_next it = Some (peek, it') ->
  _get_workflow initialize_state it_next class_body traced it self = Ok res ->
  reaches (_all_wf_methods class_body traced)
          (initialize_state peek (set_short_circuit false self)) s c ->
  decorated s c = Ok (r, c') ->
  (s ∈ steps_of (plan_of res) <-> r = _executed)
  /\ (r = returned_None ->
      Forall (fun e => s ∉ steps_of (event_executed e))
             (events initialize_state it_next class_body traced
                     success_callback fail_callback n (__call__ it self))).
Proof.
  intros Hnext Hres Hreach Hdec.
  assert (Hiff : s ∈ steps_of (plan_of res) <-> r = _executed).
  { revert Hres. unfold _get_workflow. rewrite Hnext.
    destruct (executed_of _ _) as [[ex self']|] eqn:Hex; simpl; [|discriminate].
    intros [= <-]. unfold plan_of. simpl.
    rewrite <- (executed_of_iff _ _ _ _ _ _ _ _
                  (_all_wf_methods_NoDup class_body traced) Hex Hreach Hdec).
    now destruct (debug self'). }
  split; [exact Hiff|].
  intros ->.
  assert (Hnot : s ∉ steps_of (plan_of res)).
  { intros Hs. apply Hiff in Hs. discriminate. }
  destruct n as [|n]; [constructor|].
  rewrite events_created, Hres. destruct res as [[ch workflow] self'].
  unfold plan_of in Hnot. simpl in Hnot.
  constructor; [apply not_elem_of_nil|].
  eapply Forall_impl;
    [apply (loop_executed_in_plan initialize_state it_next)|].
  intros e Hsub Hs. simpl in Hsub. apply Hnot.
  eapply elem_of_sublist; [exact Hs|]. now apply steps_of_sublist.
Qed.

(** *** When a requirement raises *)

Lemma option_condition_raises (r : requires State) (self : Workflow State)
    (e : exn) :
  option_condition r self = Raise e ->
  e = TypeError
  /\ exists k v,
       req_option r = Some k /\ options self !! k = Some v
       /\ ((values r = not_none /\ v = VNone)
           \/ (exists s, values r = values_str s /\ forall t, v <> VStr t)).
Proof.
  unfold option_condition.
  destruct (req_option r) as [k|] eqn:Hk; [|discriminate].
  destruct (options self !! k) as [v|] eqn:Ho; [|discriminate].
  destruct (values r) as [| |str|l] eqn:Hv; simpl.
  - discriminate.
  - destruct v; simpl; try discriminate.
    intros [= <-]. split; [reflexivity|]. exists k, VNone.
    split; [reflexivity|]. split; [exact Ho|]. left. now split.
  - destruct v as [|b|z|t]; simpl; try discriminate;
      intros [= <-]; (split; [reflexivity|]);
      eexists k, _; (split; [reflexivity|]); (split; [exact Ho|]);
      right; exists str; now split.
  - discriminate.
Qed.

(** X4. A method under [requires] raises only [TypeError], and exactly
    when it is not short-circuited, its data condition holds, its option is
    present, and either the matcher is [not_none] and the value is [None],
    or the matcher is a string and the value is not a string. *)
Theorem requires_raises_iff (r : requires State)
    (f : Workflow State -> Workflow State) (self : Workflow State) (e : exn) :
  requires_decorated r f self = Raise e
  <-> e = TypeError
      /\ do_short_circuit r self = false
      /\ (forall p, valid_data r = Some p -> p (state self) = true)
      /\ exists k v,
           req_option r = Some k /\ options self !! k = Some v
           /\ ((values r = not_none /\ v = VNone)
               \/ (exists s, values r = values_str s
                             /\ forall t, v <> VStr t)).
Proof.
  split.
  - intros H.
    destruct (do_short_circuit r self) eqn:Hsc;
      [rewrite requires_decorated_short_circuit in H by assumption;
       discriminate|].
    rewrite requires_decorated_conditions in H by assumption.
    assert (Hcond : other_conditions r self = Raise e).
    { destruct (other_conditions r self) as [b|e']; [discriminate|].
      simpl in H. congruence. }
    clear H. unfold other_conditions in Hcond.
    destruct (valid_data r) as [p|].
    + destruct (p (state self)) eqn:Hp; [|discriminate].
      apply option_condition_raises in Hcond as [-> Hex].
      repeat split; [congruence | exact Hex].
    + apply option_condition_raises in Hcond as [-> Hex].
      repeat split; [discriminate | exact Hex].
  - intros (-> & Hsc & Hd & k & v & Hk & Ho & Hcase).
    rewrite requires_decorated_conditions by assumption.
    unfold other_conditions, option_condition. rewrite Hk, Ho.
    assert (Hopt : (if is_not_none (values r) && negb (is_None v)
                    then Ok true else contains v (values r))
                   = Raise TypeError).
    { destruct Hcase as [[-> ->] | (str & -> & Hv)]; [reflexivity|].
      simpl. destruct v; try reflexivity. now destruct (Hv s). }
    rewrite Hopt.
    destruct (valid_data r) as [p|]; [rewrite (Hd p eq_refl)|]; reflexivity.
Qed.

(** *** Callbacks and the failure flag *)

(** X6. With a failure callback, every turn of the loop yields exactly one
    value: the failure callback's when the turn ends with [failed] set, the
    success callback's otherwise; there are as many values as items
    processed, in their order. *)
Theorem fail_callback_one_in_one_out (class_body : list (Step State))
    (traced : bool) (success_callback : option (Workflow State -> State))
    (fail_callback : Workflow State -> State)
    (it : Iter) (self : Workflow State) (n : nat) :
  outputs (events initialize_state it_next class_body traced success_callback
                  (Some fail_callback) n (__call__ it self))
  = map (yielded success_callback fail_callback)
        (finals (events initialize_state it_next class_body traced
                        success_callback (Some fail_callback) n
                        (__call__ it self)))
  /\ length (outputs (events initialize_state it_next class_body traced
                             success_callback (Some fail_callback) n
                             (__call__ it self)))
     = length (items (events initialize_state it_next class_body traced
                             success_callback (Some fail_callback) n
                             (__call__ it self))).
Proof.
  assert (Hloop : forall n c workflow self,
             outputs (events initialize_state it_next class_body traced
                             success_callback (Some fail_callback) n
                             (gen_in_loop c workflow self))
             = map (yielded success_callback fail_callback)
                   (finals (events initialize_state it_next class_body traced
                                   success_callback (Some fail_callback) n
                                   (gen_in_loop c workflow self)))).
  { clear. intros n. induction n as [|n IH]; intros c workflow self;
      [reflexivity|].
    rewrite events_in_loop.
    destruct (chain_next it_next c) as [[item c']|]; [|reflexivity].
    destruct (executed_of _ _) as [[ex self']|e]; [|reflexivity].
    rewrite outputs_processed, finals_processed. cbn [map].
    unfold yielded at 1. rewrite <- IH.
    now destruct (failed self'). }
  assert (Hout : outputs (events initialize_state it_next class_body traced
                                 success_callback (Some fail_callback) n
                                 (__call__ it self))
                 = map (yielded success_callback fail_callback)
                       (finals (events initialize_state it_next class_body
                                       traced success_callback
                                       (Some fail_callback) n
                                       (__call__ it self)))).
  { destruct n as [|n]; [reflexivity|].
    rewrite events_created.
    destruct (_get_workflow _ _ _ _ _ _) as [[[c workflow] self']|e];
      [|reflexivity].
    change (outputs (planned workflow :: ?es)) with (outputs es).
    change (finals (planned workflow :: ?es)) with (finals es).
    apply Hloop. }
  split; [exact Hout|].
  rewrite Hout, length_map. apply finals_items_length.
Qed.

(** X7. The engine never sets [failed] by itself: when neither
    [initialize_state] nor the function of any method sets it, every turn
    ends with [failed] clear and yields the success callback's value,
    whatever the failure callback and the short-circuit setting. *)
Theorem failure_comes_from_methods_only (class_body : list (Step State))
    (traced : bool)
    (success_callback fail_callback : option (Workflow State -> State))
    (it : Iter) (self : Workflow State) (n : nat) :
  (forall item x, failed x = false -> failed (initialize_state item x) = false) ->
  (forall s x, s ∈ class_body -> failed x = false -> failed (body s x) = false) ->
  Forall (fun e =>
            forall item ex c out,
              e = processed item ex c out ->
              failed c = false
              /\ out = Some (callback_or_state success_callback c))
         (events initialize_state it_next class_body traced success_callback
                 fail_callback n (__call__ it self)).
Proof.
  intros Hinit Hbody.
  destruct n as [|n]; [constructor|].
  rewrite events_created.
  destruct (_get_workflow _ _ _ _ _ _) as [[[c workflow] self']|e] eqn:Hres;
    [|repeat constructor; discriminate].
  constructor; [discriminate|].
  assert (Hwf : forall f s, f ∈ workflow -> method_step f = Some s ->
                            s ∈ class_body).
  { intros f s Hf Hs.
    assert (Hin : s ∈ steps_of (plan_of (c, workflow, self'))).
    { apply steps_of_elem_of. now exists f. }
    pose proof (elem_of_sublist _ _ _ Hin (plan_sublist _ _ _ _ _ Hres)) as Hall.
    apply steps_of_elem_of in Hall as (g & Hg & Hgs).
    now apply (_all_wf_methods_startswith class_body traced g s). }
  clear Hres. revert c self'.
  induction n as [|n IH]; intros c self'; [constructor|].
  rewrite events_in_loop.
  destruct (chain_next it_next c) as [[item c']|];
    [|repeat constructor; discriminate].
  destruct (executed_of _ _) as [[ex self'']|e] eqn:Hex;
    [|repeat constructor; discriminate].
  assert (Hf : failed self'' = false).
  { apply (executed_of_invariant (fun x => failed x = false)) in Hex;
      [exact Hex | now intros | | now apply Hinit].
    intros f s x Hfin Hs. apply Hbody. now apply (Hwf f). }
  constructor; [|apply IH].
  intros ? ? ? ? [= _ _ <- <-]. now rewrite Hf.
Qed.

(** *** The stream is read on demand *)

Lemma drop_items_chain_nil (n : nat) (it : Iter) :
  drop_items (Item:=Item) (chain_next it_next) n ([], it)
  = (fun i => ([], i)) <$> drop_items it_next n it.
Proof.
  revert it. induction n as [|n IH]; intros it; simpl; [reflexivity|].
  destruct (it_next it) as [[x it']|]; [apply IH | reflexivity].
Qed.

Lemma gen_after_in_loop (class_body : list (Step State)) (traced : bool)
    (success_callback fail_callback : option (Workflow State -> State))
    (n : nat) (c : Chain) (workflow : list (Method State))
    (self : Workflow State) :
  Forall (fun e => is_raised e = false)
         (events initialize_state it_next class_body traced success_callback
                 fail_callback n (gen_in_loop c workflow self)) ->
  exists c' self',
    gen_after initialize_state it_next class_body traced success_callback
              fail_callback n (gen_in_loop c workflow self)
    = gen_in_loop c' workflow self'
    /\ drop_items (chain_next it_next) n c = Some c'.
Proof.
  revert c self. induction n as [|n IH]; intros c self; [simpl; eauto|].
  rewrite events_in_loop. cbn [gen_after drop_items]. rewrite step_in_loop.
  destruct (chain_next it_next c) as [[item c']|];
    [|intros H; inversion H; discriminate].
  destruct (executed_of _ _) as [[ex self']|e];
    [|intros H; inversion H; discriminate].
  intros H. apply Forall_cons_1 in H as [_ H]. cbn [snd]. now apply IH.
Qed.

(** X8. The run reads its stream on demand. Once the plan is resolved the
    generator holds the first item, put back in front of the iterator
    advanced once; after [n] further turns, [n] at least 1, it holds
    nothing in front of the iterator, which has been advanced [n] times in
    all. The plan it loops over stays the one resolved. *)
Theorem run_reads_on_demand (class_body : list (Step State)) (traced : bool)
    (success_callback fail_callback : option (Workflow State -> State))
    (it it' : Iter) (peek : Item) (self : Workflow State) (n : nat) :
  it_next it = Some (peek, it') ->
  Forall (fun e => is_raised e = false)
         (events initialize_state it_next class_body traced success_callback
                 fail_callback (S n) (__call__ it self)) ->
  exists res c self',
    _get_workflow initialize_state it_next class_body traced it self = Ok res
    /\ gen_after initialize_state it_next class_body traced success_callback
                 fail_callback (S n) (__call__ it self)
       = gen_in_loop c (plan_of res) self'
    /\ match n with
       | O => c = ([peek], it')
       | S _ => exists it_n,
                  c = ([], it_n) /\ drop_items it_next n it = Some it_n
       end.
Proof.
  intros Hnext. rewrite events_created. cbn [gen_after]. rewrite step_created.
  destruct (_get_workflow _ _ _ _ _ _) as [[[ch workflow] self1]|e] eqn:Hres;
    [|intros H; inversion H; discriminate].
  intros H. apply Forall_cons_1 in H as [_ H]. cbn [snd].
  destruct (gen_after_in_loop _ _ _ _ _ _ _ _ H) as (c & self' & Hgen & Hdrop).
  exists (ch, workflow, self1), c, self'.
  split; [reflexivity|]. split; [exact Hgen|].
  assert (Hch : ch = ([peek], it')).
  { revert Hres. unfold _get_workflow. rewrite Hnext.
    destruct (executed_of _ _) as [[ex w]|]; simpl; [|discriminate].
    now intros [= <- _ _]. }
  subst ch. destruct n as [|n]; [simpl in Hdrop; congruence|].
  cbn [drop_items chain_next] in Hdrop.
  rewrite drop_items_chain_nil in Hdrop.
  cbn [drop_items]. rewrite Hnext.
  destruct (drop_items it_next n it') as [it_n|]; [|discriminate].
  simpl in Hdrop. injection Hdrop as <-. now exists it_n.
Qed.

(** *** Resolution sees every method *)

(** *** Debug tracing *)

Lemma methods_as_map (traced : bool) (fs : list (Method State)) :
  Forall (fun f => exists s, f = getattr_wf traced s) fs ->
  fs = map (getattr_wf traced) (steps_of fs).
Proof.
  induction 1 as [|f fs (s & ->) _ IH]; [reflexivity|].
  rewrite steps_of_cons, getattr_wf_step. cbn [map]. now f_equal.
Qed.

Lemma _all_wf_methods_getattr (class_body : list (Step State))
    (traced : bool) :
  Forall (fun f => exists s, f = getattr_wf traced s)
         (_all_wf_methods class_body traced).
Proof.
  apply Forall_forall. intros f Hf.
  apply _all_wf_methods_elem_of in Hf as (s & _ & -> & _). now exists s.
Qed.

(** The calls of traced methods append their names to the trace, whether
    or not the functions under them are called. *)
Lemma traced_calls_trace (ss : list (Step State)) (ex : list (Method State))
    (self self' : Workflow State) (t : list string) :
  (forall s x, s ∈ ss -> debug_trace (body s x) = debug_trace x) ->
  debug_trace self = Some t ->
  executed_of (map traced_method ss) self = Ok (ex, self') ->
  debug_trace self' = Some (t ++ map name ss).
Proof.
  revert ex self self' t.
  induction ss as [|s ss IH]; intros ex self self' t Hbody Ht; simpl.
  - intros [= _ <-]. now rewrite app_nil_r.
  - unfold _debug_trace_wrapper. rewrite Ht. simpl.
    destruct (decorated s _) as [[r self1]|] eqn:Hdec; simpl; [|discriminate].
    destruct (executed_of _ self1) as [[ex1 self2]|] eqn:Hex; simpl;
      [|discriminate].
    intros [= _ <-].
    rewrite (IH ex1 self1 self2 (t ++ [name s])); [| | |exact Hex].
    + now rewrite <- app_assoc.
    + intros u x Hu. apply Hbody. now apply list_elem_of_further.
    + destruct (decorated_cases _ _ _ _ Hdec) as [[_ ->] | [_ ->]];
        [|reflexivity].
      rewrite Hbody by apply list_elem_of_here. reflexivity.
Qed.


(** *** Tracing changes nothing that is observed *)

Lemma ignores_tracing_debug (f : Workflow State -> Workflow State)
    (w : Workflow State) :
  ignores_tracing f -> debug (f w) = debug w.
Proof.
  intros Hf. specialize (Hf (debug w) (debug_trace w) w).
  assert (Hw : set_tracing (debug w) (debug_trace w) w = w)
    by now destruct w.
  rewrite Hw in Hf. rewrite Hf at 1. reflexivity.
Qed.

Lemma traced_of_ignores (f : Workflow State -> Workflow State)
    (w1 w2 : Workflow State) :
  ignores_tracing f -> traced_of w1 w2 -> traced_of (f w1) (f w2).
Proof.
  intros Hf [Hd (t & ->)]. split.
  - now rewrite ignores_tracing_debug.
  - exists t. apply Hf.
Qed.

Lemma decorated_gate (s : Step State) (self : Workflow State) :
  decorated s self
  = match decorator s with
    | no_requirements => Ok (_executed, body s self)
    | with_requires r =>
        if do_short_circuit r self then Ok (returned_None, self)
        else b ← other_conditions r self;
             Ok (if b : bool then (_executed, body s self)
                 else (returned_None, self))
    end.
Proof.
  unfold decorated. destruct (decorator s) as [|r]; [reflexivity|].
  destruct (do_short_circuit r self) eqn:Hsc.
  - now apply requires_decorated_short_circuit.
  - now apply requires_decorated_conditions.
Qed.

Lemma decorated_traced_of (s : Step State) (w1 w2 : Workflow State) :
  ignores_tracing (body s) ->
  traced_of w1 w2 ->
  same_outcome (fun a b => fst a = fst b /\ traced_of (snd a) (snd b))
               (decorated s w1) (decorated s w2).
Proof.
  intros Hf Hw. pose proof (traced_of_ignores _ _ _ Hf Hw) as Hbody.
  rewrite !decorated_gate. destruct Hw as [Hd (t & ->)].
  destruct (decorator s) as [|r]; [now split|].
  change (do_short_circuit r (set_tracing true (Some t) w2))
    with (do_short_circuit r w2).
  change (other_conditions r (set_tracing true (Some t) w2))
    with (other_conditions r w2).
  destruct (do_short_circuit r w2); [split; [reflexivity|split; eauto]|].
  destruct (other_conditions r w2) as [[]|e]; simpl;
    [now split | split; [reflexivity|split; eauto] | reflexivity].
Qed.

Lemma executed_of_traced_of (ss : list (Step State))
    (w1 w2 : Workflow State) :
  (forall s, s ∈ ss -> ignores_tracing (body s)) ->
  traced_of w1 w2 ->
  same_outcome
    (fun a b =>
       (exists es, fst a = map traced_method es /\ fst b = map bound_method es)
       /\ traced_of (snd a) (snd b))
    (executed_of (map traced_method ss) w1)
    (executed_of (map bound_method ss) w2).
Proof.
  revert w1 w2. induction ss as [|s ss IH]; intros w1 w2 Hbody Hw; simpl.
  - split; [now exists []|exact Hw].
  - assert (Hw' : exists t, _debug_trace_wrapper (name s) w1
                            = Ok (set_tracing true (Some t) w2)).
    { destruct Hw as [_ (t & ->)]. exists (t ++ [name s]). reflexivity. }
    destruct Hw' as (t & ->). simpl.
    assert (Hrel : traced_of (set_tracing true (Some t) w2) w2)
      by (split; [apply Hw | now exists t]).
    pose proof (decorated_traced_of s _ _
                  (Hbody s (list_elem_of_here _ _)) Hrel) as Hdec.
    destruct (decorated s (set_tracing true (Some t) w2)) as [[r1 w1']|e1],
             (decorated s w2) as [[r2 w2']|e2]; simpl in Hdec;
      try contradiction; [|exact Hdec].
    destruct Hdec as [<- Hw1]. simpl.
    assert (Hss : forall u, u ∈ ss -> ignores_tracing (body u))
      by (intros u Hu; apply Hbody; now apply list_elem_of_further).
    specialize (IH w1' w2' Hss Hw1).
    destruct (executed_of (map traced_method ss) w1') as [[ex1 w1'']|e1],
             (executed_of (map bound_method ss) w2') as [[ex2 w2'']|e2];
      simpl in IH; try contradiction; [|exact IH].
    destruct IH as [(es & Hex1 & Hex2) Hw2]. simpl in *. subst ex1 ex2.
    split; [|exact Hw2].
    destruct r1; simpl; [now exists (s :: es) | now exists es].
Qed.

Lemma insert_reverse_getattr (traced : bool) (x : Step State)
    (l : list (Step State)) :
  insert_reverse (getattr_wf traced x) (map (getattr_wf traced) l)
  = map (getattr_wf traced)
        (steps_of (insert_reverse (bound_method x) (map bound_method l))).
Proof.
  induction l as [|y l IH]; cbn [map insert_reverse].
  - now rewrite steps_of_cons.
  - rewrite !(key_step _ _ (getattr_wf_step traced _)).
    rewrite !(key_step (bound_method _) _ eq_refl).
    destruct (step_priority x <? step_priority y).
    + rewrite steps_of_cons. cbn [method_step map]. now rewrite IH.
    + rewrite !steps_of_cons. cbn [method_step map].
      now rewrite (steps_of_map_getattr_wf false).
Qed.

Lemma sorted_reverse_getattr (traced : bool) (l : list (Step State)) :
  sorted_reverse (map (getattr_wf traced) l)
  = map (getattr_wf traced)
        (steps_of (sorted_reverse (map bound_method l))).
Proof.
  induction l as [|x l IH]; [reflexivity|].
  cbn [map sorted_reverse foldr].
  fold (sorted_reverse (map (getattr_wf traced) l)).
  fold (sorted_reverse (map bound_method l)).
  rewrite IH.
  rewrite (methods_as_map false (sorted_reverse (map bound_method l))) at 2.
  - apply insert_reverse_getattr.
  - apply Forall_forall. intros f Hf.
    rewrite sorted_reverse_Permutation in Hf.
    apply list_elem_of_In, in_map_iff in Hf as (s & <- & _). now exists s.
Qed.

Lemma executed_of_setup (fs : list (Method State)) (self : Workflow State) :
  executed_of (setup_debug_trace_method :: fs) self
  = executed_of fs (_setup_debug_trace self).
Proof.
  simpl. destruct (executed_of fs _) as [[ex self']|]; reflexivity.
Qed.

Lemma loop_traced_of (class_body : list (Step State))
    (success_callback fail_callback : option (Workflow State -> State))
    (es : list (Step State)) (n : nat) (c : Chain)
    (w1 w2 : Workflow State) :
  (forall item, ignores_tracing (initialize_state item)) ->
  (forall s, s ∈ es -> ignores_tracing (body s)) ->
  reads_no_tracing success_callback ->
  reads_no_tracing fail_callback ->
  traced_of w1 w2 ->
  map observe
      (events initialize_state it_next class_body true success_callback
              fail_callback n
              (gen_in_loop c (setup_debug_trace_method :: map traced_method es)
                           w1))
  = map observe
        (events initialize_state it_next class_body false success_callback
                fail_callback n (gen_in_loop c (map bound_method es) w2)).
Proof.
  intros Hinit Hbody Hscb Hfcb. revert c w1 w2.
  induction n as [|n IH]; intros c w1 w2 Hw; [reflexivity|].
  rewrite !events_in_loop.
  destruct (chain_next it_next c) as [[item c']|]; [|reflexivity].
  assert (Hw0 : traced_of
                  (_setup_debug_trace
                     (initialize_state item (set_failed false w1)))
                  (initialize_state item (set_failed false w2))).
  { assert (Hw1 : traced_of (initialize_state item (set_failed false w1))
                            (initialize_state item (set_failed false w2))).
    { apply traced_of_ignores; [apply Hinit|].
      destruct Hw as [Hd (t & ->)]. split; [exact Hd | now exists t]. }
    destruct Hw1 as [Hd (t & ->)]. split; [exact Hd | now exists []]. }
  pose proof (executed_of_traced_of es _ _ Hbody Hw0) as Hex.
  rewrite executed_of_setup.
  destruct (executed_of (map traced_method es) _) as [[ex1 w1']|e1],
           (executed_of (map bound_method es) _) as [[ex2 w2']|e2];
    simpl in Hex; try contradiction; [|now subst].
  destruct Hex as [_ Hw']. cbn [map observe].
  rewrite (IH c' w1' w2' Hw').
  destruct Hw' as [_ (t & ->)].
  change (failed (set_tracing true (Some t) w2')) with (failed w2').
  rewrite (Hscb true (Some t) w2').
  destruct (failed w2'); [|reflexivity].
  destruct fail_callback as [fc|]; [|reflexivity].
  pose proof (Hfcb true (Some t) w2') as Hfc. simpl in Hfc.
  now rewrite Hfc.
Qed.


(** *** Workflows that cannot raise *)

(** X5. With option values that are hashable scalars ([None], a bool, an
    int or a str, the values of [Value]) and user functions
    ([initialize_state], the method functions, [valid_data], the callbacks
    and the iterator) that do not raise, a workflow built without debug
    tracing, all of whose requirements match with [anything] or a set of
    values, raises nothing of its own: the only exception that ever leaves
    the run is the [StopIteration] that ends it. An option value that
    cannot be hashed (a list, a dict) is outside this model: tested
    against a set, it raises [TypeError] in the source. *)
Theorem safe_workflow_never_raises (class_body : list (Step State))
    (success_callback fail_callback : option (Workflow State -> State))
    (it : Iter) (self : Workflow State) (n : nat) :
  (forall s, s ∈ class_body -> step_safe s = true) ->
  Forall (fun e => forall x, e = raised x -> x = StopIteration)
         (events initialize_state it_next class_body false success_callback
                 fail_callback n (__call__ it self)).
Proof.
  intros Hsafe. apply Forall_forall. intros e He x ->.
  eapply (safe_run_raises_StopIteration_only initialize_state it_next);
    eassumption.
Qed.

(** *** A requirement that raises aborts the run *)

Lemma class_dir_elem_of_NoDup (class_body : list (Step State))
    (s : Step State) :
  NoDup (map name class_body) -> s ∈ class_body -> s ∈ class_dir class_body.
Proof.
  intros Hnd Hs. now rewrite class_dir_Permutation.
Qed.

Lemma _all_wf_methods_has (class_body : list (Step State)) (traced : bool)
    (s : Step State) :
  NoDup (map name class_body) ->
  s ∈ class_body ->
  startswith_wf s = true ->
  getattr_wf traced s ∈ _all_wf_methods class_body traced.
Proof.
  intros Hnd Hs Hwf. unfold _all_wf_methods.
  rewrite sorted_reverse_Permutation.
  apply list_elem_of_In, in_map, filter_In. split; [|exact Hwf].
  now apply list_elem_of_In, class_dir_elem_of_NoDup.
Qed.

(** A sequence of calls that holds a method raising on every instance the
    calls can reach does raise. *)
Lemma executed_of_raises (P : Workflow State -> Prop)
    (fs : list (Method State)) (f : Method State) (s : Step State)
    (self : Workflow State) :
  (forall x t, P x -> P (set_debug_trace t x)) ->
  (forall g u x, g ∈ fs -> method_step g = Some u -> P x -> P (body u x)) ->
  (forall x, P x -> exists e, decorated s x = Raise e) ->
  f ∈ fs ->
  method_step f = Some s ->
  P self ->
  exists e, executed_of fs self = Raise e.
Proof.
  intros Htrace Hbody Hraise Hf Hs. revert self Hbody.
  induction fs as [|g fs IH]; intros self Hbody HP;
    [now apply elem_of_nil in Hf|].
  simpl.
  destruct (call g self) as [[r self1]|e] eqn:Hcall; simpl; [|eauto].
  apply elem_of_cons in Hf as [->|Hf].
  - exfalso.
    destruct (call_cases _ _ _ _ Hcall)
      as [(u & c & Hin & Hdec) | (-> & _)]; [|discriminate].
    apply enters_shape in Hin as [Hu Hc].
    assert (u = s) as -> by congruence.
    assert (HPc : P c)
      by (destruct Hc as [->|[t ->]]; [exact HP | now apply Htrace]).
    destruct (Hraise c HPc) as (e & He). congruence.
  - destruct (IH Hf self1) as (e & ->); [| |simpl; eauto].
    + intros h u x Hh. apply Hbody. now apply list_elem_of_further.
    + eapply call_invariant; [exact Htrace | | exact HP | exact Hcall].
      intros u x. apply Hbody. apply list_elem_of_here.
Qed.

(** X12. One requirement whose option test raises aborts the whole run.
    Take a class of methods with distinct names, one of them a ['wf_']
    method under [requires] with no data condition whose option test
    raises on the options of the instance (the matcher [not_none] with the
    value [None], or a string matcher with a value that is not a string),
    and user code that changes neither the options nor [short_circuit].
    Then plan resolution raises: the first advance of the generator ends
    with an exception other than [StopIteration], and no item is ever
    processed. *)
Theorem raising_requirement_aborts_run (class_body : list (Step State))
    (traced : bool)
    (success_callback fail_callback : option (Workflow State -> State))
    (it it' : Iter) (peek : Item) (self : Workflow State)
    (s : Step State) (r : requires State) (e0 : exn) (n : nat) :
  it_next it = Some (peek, it') ->
  NoDup (map name class_body) ->
  s ∈ class_body ->
  startswith_wf s = true ->
  decorator s = with_requires r ->
  valid_data r = None ->
  option_condition r self = Raise e0 ->
  (forall item x,
      options (initialize_state item x) = options x
      /\ (short_circuit x = false ->
          short_circuit (initialize_state item x) = false)) ->
  (forall u x,
      u ∈ class_body ->
      options (body u x) = options x
      /\ (short_circuit x = false -> short_circuit (body u x) = false)) ->
  exists e,
    e <> StopIteration
    /\ events initialize_state it_next class_body traced success_callback
              fail_callback (S n) (__call__ it self)
       = [raised e].
Proof.
  intros Hnext Hnd Hs Hwf Hdec Hvd Hopt Hinit Hbody.
  pose (P := fun x : Workflow State =>
               options x = options self /\ short_circuit x = false).
  assert (Hex : exists e,
             executed_of (_all_wf_methods class_body traced)
                         (initialize_state peek (set_short_circuit false self))
             = Raise e).
  { apply (executed_of_raises P _ (getattr_wf traced s) s).
    - intros x t [Ho Hsc]. now split.
    - intros g u x Hg Hu [Ho Hsc].
      destruct (_all_wf_methods_startswith _ _ _ _ Hg Hu) as [Hin _].
      destruct (Hbody u x Hin) as [Ho' Hsc']. split; [congruence | auto].
    - intros x [Ho Hsc]. exists e0.
      unfold decorated. rewrite Hdec.
      rewrite requires_decorated_conditions
        by (unfold do_short_circuit; rewrite Hsc;
            now destruct (valid_state r), (failed x)).
      unfold other_conditions. rewrite Hvd.
      assert (Hsame : option_condition r x = option_condition r self)
        by (unfold option_condition; now rewrite Ho).
      now rewrite Hsame, Hopt.
    - now apply _all_wf_methods_has.
    - apply getattr_wf_step.
    - destruct (Hinit peek (set_short_circuit false self)) as [Ho Hsc].
      split; [exact Ho | now apply Hsc]. }
  destruct Hex as (e & Hex). exists e. split.
  - intros ->. now apply executed_of_not_StopIteration in Hex.
  - rewrite events_created. unfold _get_workflow. now rewrite Hnext, Hex.
Qed.

End FurtherProperties.

(* ===================================================================== *)
(** ** The turns of a run, item by item *)
(* ===================================================================== *)

Section TurnsOfARun.

Context {Item State Iter : Type}.
Context (initialize_state : Item -> Workflow State -> Workflow State).
Context (it_next : Iter -> option (Item * Iter)).

(** *** Calls that return *)

Lemma trace_ready_debug_trace (traced : bool) (x y : Workflow State) :
  debug_trace y = debug_trace x -> trace_ready traced x -> trace_ready traced y.
Proof. unfold trace_ready. now intros ->. Qed.

Lemma call_returns_ready (class_body : list (Step State)) (traced : bool)
    (f : Method State) (x : Workflow State) :
  (forall s, s ∈ class_body -> step_safe s = true) ->
  (forall s y, s ∈ class_body ->
               trace_ready traced y -> trace_ready traced (body s y)) ->
  plan_method class_body traced f ->
  trace_ready traced x ->
  exists r x', call f x = Ok (r, x') /\ trace_ready traced x'.
Proof.
  intros Hsafe Hbody [-> | (s & Hs & ->)] Hx.
  - simpl. eexists _, _. split; [reflexivity|]. intros _. simpl. eauto.
  - destruct traced; simpl.
    + destruct (Hx eq_refl) as [t Ht].
      unfold _debug_trace_wrapper. rewrite Ht. simpl.
      set (x1 := set_debug_trace (Some (t ++ [name s])) x).
      assert (Hx1 : trace_ready true x1) by (intros _; simpl; eauto).
      destruct (decorated_returns s x1 (Hsafe s Hs)) as (r & x2 & Hdec).
      exists r, x2. split; [exact Hdec|].
      destruct (decorated_cases _ _ _ _ Hdec) as [[_ ->] | [_ ->]];
        [now apply Hbody | exact Hx1].
    + destruct (decorated_returns s x (Hsafe s Hs)) as (r & x2 & Hdec).
      exists r, x2. split; [exact Hdec | discriminate].
Qed.

Lemma executed_of_returns_ready (class_body : list (Step State))
    (traced : bool) (fs : list (Method State)) (x : Workflow State) :
  (forall s, s ∈ class_body -> step_safe s = true) ->
  (forall s y, s ∈ class_body ->
               trace_ready traced y -> trace_ready traced (body s y)) ->
  Forall (plan_method class_body traced) fs ->
  trace_ready traced x ->
  exists ex x', executed_of fs x = Ok (ex, x') /\ trace_ready traced x'.
Proof.
  intros Hsafe Hbody Hfs. revert x.
  induction Hfs as [|f fs Hf _ IH]; intros x Hx; simpl; [eauto|].
  destruct (call_returns_ready _ _ _ _ Hsafe Hbody Hf Hx)
    as (r & x1 & -> & Hx1).
  simpl. destruct (IH x1 Hx1) as (ex & x2 & -> & Hx2). simpl. eauto.
Qed.

Lemma _all_wf_methods_plan_method (class_body : list (Step State))
    (traced : bool) :
  Forall (plan_method class_body traced) (_all_wf_methods class_body traced).
Proof.
  apply Forall_forall. intros f Hf.
  apply _all_wf_methods_elem_of in Hf as (s & Hs & -> & _).
  right. now exists s.
Qed.

Lemma plan_of_plan_method (class_body : list (Step State)) (traced : bool)
    (it : Iter) (self : Workflow State)
    (res : Chain * list (Method State) * Workflow State) :
  _get_workflow initialize_state it_next class_body traced it self = Ok res ->
  Forall (plan_method class_body traced) (plan_of res).
Proof.
  unfold _get_workflow.
  destruct (it_next it) as [[peek it']|]; [|discriminate].
  destruct (executed_of _ _) as [[ex self']|] eqn:Hex; simpl; [|discriminate].
  intros [= <-]. unfold plan_of. simpl.
  assert (Hall : Forall (plan_method class_body traced) ex).
  { apply Forall_forall. intros f Hf.
    apply (proj1 (Forall_forall _ _)
                 (_all_wf_methods_plan_method class_body traced)).
    eapply elem_of_sublist; [exact Hf|].
    eapply executed_of_sublist; exact Hex. }
  destruct (debug self'); [|exact Hall].
  constructor; [now left | exact Hall].
Qed.

(** Plan resolution of a workflow that raises nothing returns, on every
    stream that has a first item. *)
Lemma _get_workflow_returns_ready (class_body : list (Step State))
    (traced : bool) (it it' : Iter) (peek : Item) (self : Workflow State) :
  it_next it = Some (peek, it') ->
  raises_nothing initialize_state class_body traced self ->
  exists res,
    _get_workflow initialize_state it_next class_body traced it self = Ok res
    /\ trace_ready traced (self_of res).
Proof.
  intros Hnext (Hsafe & Hself & Hinit & Hbody).
  unfold _get_workflow. rewrite Hnext.
  destruct (executed_of_returns_ready class_body traced
              (_all_wf_methods class_body traced)
              (initialize_state peek (set_short_circuit false self))
              Hsafe Hbody (_all_wf_methods_plan_method class_body traced))
    as (ex & x' & -> & Hx').
  - apply Hinit. exact Hself.
  - simpl. eexists. split; [reflexivity|]. exact Hx'.
Qed.

(** *** The turns, read off the stream *)

Lemma turns_length (class_body : list (Step State)) (traced : bool)
    (workflow : list (Method State)) (self : Workflow State)
    (xs : list Item) :
  (forall s, s ∈ class_body -> step_safe s = true) ->
  (forall item x,
      trace_ready traced x -> trace_ready traced (initialize_state item x)) ->
  (forall s y, s ∈ class_body ->
               trace_ready traced y -> trace_ready traced (body s y)) ->
  Forall (plan_method class_body traced) workflow ->
  trace_ready traced self ->
  length (turns initialize_state workflow self xs) = length xs.
Proof.
  intros Hsafe Hinit Hbody Hwf. revert self.
  induction xs as [|x xs IH]; intros self Hself; [reflexivity|].
  cbn [turns].
  destruct (executed_of_returns_ready class_body traced workflow
              (initialize_state x (set_failed false self))
              Hsafe Hbody Hwf)
    as (ex & x' & -> & Hx').
  - apply Hinit. exact Hself.
  - cbn [length]. f_equal. now apply IH.
Qed.

Lemma loop_finals_turns (class_body : list (Step State)) (traced : bool)
    (success_callback fail_callback : option (Workflow State -> State))
    (n : nat) (c : Chain) (workflow : list (Method State))
    (self : Workflow State) :
  finals (events initialize_state it_next class_body traced success_callback
                 fail_callback n (gen_in_loop c workflow self))
  = turns initialize_state workflow self
          (take_items (chain_next it_next) n c).
Proof.
  revert c self. induction n as [|n IH]; intros c self; [reflexivity|].
  rewrite events_in_loop. cbn [take_items].
  destruct (chain_next it_next c) as [[item c']|]; [|reflexivity].
  cbn [turns].
  destruct (executed_of _ _) as [[ex self']|e]; [|reflexivity].
  rewrite finals_processed. f_equal. apply IH.
Qed.

Lemma loop_items_turns (class_body : list (Step State)) (traced : bool)
    (success_callback fail_callback : option (Workflow State -> State))
    (n : nat) (c : Chain) (workflow : list (Method State))
    (self : Workflow State) :
  items (events initialize_state it_next class_body traced success_callback
                fail_callback n (gen_in_loop c workflow self))
  = take (length (turns initialize_state workflow self
                        (take_items (chain_next it_next) n c)))
         (take_items (chain_next it_next) n c).
Proof.
  revert c self. induction n as [|n IH]; intros c self; [reflexivity|].
  rewrite events_in_loop. cbn [take_items].
  destruct (chain_next it_next c) as [[item c']|]; [|reflexivity].
  cbn [turns].
  destruct (executed_of _ _) as [[ex self']|e]; [|reflexivity].
  rewrite items_processed. cbn [length take]. f_equal. apply IH.
Qed.

(** The events of a run whose plan resolution has returned. *)
Lemma events_resolved (class_body : list (Step State)) (traced : bool)
    (success_callback fail_callback : option (Workflow State -> State))
    (n : nat) (it : Iter) (self : Workflow State)
    (res : Chain * list (Method State) * Workflow State) :
  _get_workflow initialize_state it_next class_body traced it self = Ok res ->
  events initialize_state it_next class_body traced success_callback
         fail_callback (S n) (__call__ it self)
  = planned (plan_of res)
    :: events initialize_state it_next class_body traced success_callback
              fail_callback n
              (gen_in_loop (stream_of res) (plan_of res) (self_of res)).
Proof.
  intros Hres. rewrite events_created, Hres.
  now destruct res as [[c workflow] self'].
Qed.

Lemma stream_of_resolved (class_body : list (Step State)) (traced : bool)
    (it it' : Iter) (peek : Item) (self : Workflow State)
    (res : Chain * list (Method State) * Workflow State) :
  it_next it = Some (peek, it') ->
  _get_workflow initialize_state it_next class_body traced it self = Ok res ->
  stream_of res = ([peek], it').
Proof.
  intros Hnext. unfold _get_workflow. rewrite Hnext.
  destruct (executed_of _ _) as [[ex self']|]; simpl; [|discriminate].
  now intros [= <-].
Qed.

(** *** The stream is processed whole *)


(** *** What a run without failure callback yields *)

(** C6. Without a failure callback, once the plan is resolved: the
    instances on which the turns end are those the loop computes item by
    item from the stream; a turn that ends with [failed] set yields
    nothing and every other turn yields the success callback's value; so
    the values yielded are those of the items that did not fail, as many,
    in the order of the stream. And for a workflow that raises nothing
    every item of the stream has its turn: after [n] turns the run has
    processed the first [n] items of the stream (all of them if it has
    fewer), one final instance each. *)
Theorem C6_outputs_are_the_non_failed_items (class_body : list (Step State))
    (traced : bool) (success_callback : option (Workflow State -> State))
    (it it' : Iter) (peek : Item) (self : Workflow State) :
  it_next it = Some (peek, it') ->
  (forall res n,
      _get_workflow initialize_state it_next class_body traced it self = Ok res ->
      finals (events initialize_state it_next class_body traced
                     success_callback None (S n) (__call__ it self))
      = turns initialize_state (plan_of res) (self_of res)
              (take_items it_next n it)
      /\ Forall (fun e =>
                   forall item ex c out,
                     e = processed item ex c out ->
                     out = if failed c then None
                           else Some (callback_or_state success_callback c))
                (events initialize_state it_next class_body traced
                        success_callback None (S n) (__call__ it self))
      /\ outputs (events initialize_state it_next class_body traced
                         success_callback None (S n) (__call__ it self))
         = map (callback_or_state success_callback)
               (List.filter (fun c => negb (failed c))
                  (turns initialize_state (plan_of res) (self_of res)
                         (take_items it_next n it)))
      /\ length (outputs (events initialize_state it_next class_body traced
                                 success_callback None (S n)
                                 (__call__ it self)))
         = length (List.filter (fun c => negb (failed c))
                     (turns initialize_state (plan_of res) (self_of res)
                            (take_items it_next n it))))
  /\ (raises_nothing initialize_state class_body traced self ->
      exists res,
        _get_workflow initialize_state it_next class_body traced it self
        = Ok res
        /\ forall n,
             items (events initialize_state it_next class_body traced
                           success_callback None (S n) (__call__ it self))
             = take_items it_next n it
             /\ length (turns initialize_state (plan_of res) (self_of res)
                              (take_items it_next n it))
                = length (take_items it_next n it)).
Proof.
  intros Hnext.
  assert (Hloop : forall n c workflow self,
             dropping_events success_callback
               (events initialize_state it_next class_body traced
                       success_callback None n (gen_in_loop c workflow self))).
  { clear. intros n. induction n as [|n IH]; intros c workflow self.
    - split; [constructor | reflexivity].
    - rewrite events_in_loop.
      destruct (chain_next it_next c) as [[item c']|];
        [|split; [repeat constructor; discriminate | reflexivity]].
      destruct (executed_of _ _) as [[ex self']|e];
        [|split; [repeat constructor; discriminate | reflexivity]].
      destruct (IH c' workflow self') as [IH1 IH2].
      split.
      + constructor; [|exact IH1]. now intros ? ? ? ? [= _ _ <- <-].
      + rewrite outputs_processed, finals_processed. cbn [List.filter].
        destruct (failed self'); cbn [negb map]; now rewrite IH2. }
  split.
  - intros res n Hres.
    pose proof (stream_of_resolved _ _ _ _ _ _ _ Hnext Hres) as Hstream.
    rewrite (events_resolved _ _ _ _ _ _ _ _ Hres).
    change (finals (planned ?w :: ?es)) with (finals es).
    change (outputs (planned ?w :: ?es)) with (outputs es).
    destruct (Hloop n (stream_of res) (plan_of res) (self_of res)) as [H1 H2].
    assert (Hfinals :
              finals (events initialize_state it_next class_body traced
                             success_callback None n
                             (gen_in_loop (stream_of res) (plan_of res)
                                          (self_of res)))
              = turns initialize_state (plan_of res) (self_of res)
                      (take_items it_next n it)).
    { rewrite loop_finals_turns, Hstream.
      now rewrite (take_items_chain_peek it_next n peek it it' Hnext). }
    split; [exact Hfinals|].
    split; [constructor; [discriminate | exact H1]|].
    rewrite <- Hfinals.
    split; [exact H2 | rewrite H2; apply length_map].
  - intros Hsafe.
    destruct (_get_workflow_returns_ready _ _ _ _ _ _ Hnext Hsafe)
      as (res & Hres & Hready).
    exists res. split; [exact Hres|]. intros n.
    pose proof (stream_of_resolved _ _ _ _ _ _ _ Hnext Hres) as Hstream.
    destruct Hsafe as (Hs & _ & Hinit & Hbody).
    assert (Hlen : length (turns initialize_state (plan_of res) (self_of res)
                                 (take_items it_next n it))
                   = length (take_items it_next n it)).
    { apply (turns_length class_body traced); try assumption.
      eapply plan_of_plan_method; exact Hres. }
    split; [|exact Hlen].
    rewrite (events_resolved _ _ _ _ _ _ _ _ Hres).
    change (items (planned ?w :: ?es)) with (items es).
    rewrite loop_items_turns, Hstream.
    rewrite (take_items_chain_peek it_next n peek it it' Hnext), Hlen.
    apply firstn_all.
Qed.

(** *** Short-circuiting within a turn *)

Lemma steps_of_app (fs gs : list (Method State)) :
  steps_of (fs ++ gs) = steps_of fs ++ steps_of gs.
Proof. apply omap_app. Qed.

Lemma executed_of_app (fs gs ex : list (Method State))
    (self self' : Workflow State) :
  executed_of (fs ++ gs) self = Ok (ex, self') ->
  exists ex1 ex2 mid,
    executed_of fs self = Ok (ex1, mid)
    /\ executed_of gs mid = Ok (ex2, self')
    /\ ex = ex1 ++ ex2.
Proof.
  revert ex self. induction fs as [|f fs IH]; intros ex self; simpl.
  - intros H. exists [], ex, self. now repeat split.
  - destruct (call f self) as [[r self1]|]; simpl; [|discriminate].
    destruct (executed_of (fs ++ gs) self1) as [[ex0 self2]|] eqn:Hex; simpl;
      [|discriminate].
    intros [= <- <-].
    destruct (IH ex0 self1 Hex) as (ex1 & ex2 & mid & -> & Hgs & ->).
    simpl. exists (if is_executed r then f :: ex1 else ex1), ex2, mid.
    repeat split; [exact Hgs|]. now destruct (is_executed r).
Qed.

(** A sequence of calls that returns has entered each of its methods, and
    the decorated function entered has returned. *)
Lemma executed_of_reaches_all (fs ex : list (Method State))
    (self self' : Workflow State) (s : Step State) :
  executed_of fs self = Ok (ex, self') ->
  s ∈ steps_of fs ->
  exists d r d', reaches fs self s d /\ decorated s d = Ok (r, d').
Proof.
  revert ex self self'. induction fs as [|f fs IH]; intros ex self self'.
  - intros _ Hs. now apply elem_of_nil in Hs.
  - cbn [executed_of].
    destruct (call f self) as [[r self1]|] eqn:Hcall;
      cbn [mbind Result_bind bind]; [|intros H; discriminate H].
    destruct (executed_of fs self1) as [[ex1 self2]|] eqn:Hex;
      cbn [mbind Result_bind bind]; [|intros H; discriminate H].
    intros _ Hs. rewrite steps_of_cons in Hs.
    assert (Hlater : s ∈ steps_of fs ->
                     exists d r0 d', reaches (f :: fs) self s d
                                     /\ decorated s d = Ok (r0, d')).
    { intros Hin.
      destruct (IH ex1 self1 self2 Hex Hin) as (d & r0 & d' & Hr & Hd).
      exists d, r0, d'. split; [|exact Hd].
      eapply reaches_later; eassumption. }
    destruct (method_step f) as [u|] eqn:Hu; [|now apply Hlater].
    apply elem_of_cons in Hs as [->|Hs]; [|now apply Hlater].
    destruct (call_cases _ _ _ _ Hcall)
      as [(t & d & Hin & Hdec) | (-> & _)]; [|discriminate].
    pose proof (enters_shape _ _ _ _ Hin) as [Ht _].
    assert (t = u) as -> by congruence.
    exists d, r, self1. split; [now apply reaches_here | exact Hdec].
Qed.

Lemma plan_of_NoDup (class_body : list (Step State)) (traced : bool)
    (it : Iter) (self : Workflow State)
    (res : Chain * list (Method State) * Workflow State) :
  _get_workflow initialize_state it_next class_body traced it self = Ok res ->
  NoDup (steps_of (plan_of res)).
Proof.
  intros Hres.
  pose proof (plan_sublist initialize_state it_next _ _ _ _ _ Hres) as Hsub.
  pose proof (_all_wf_methods_NoDup class_body traced) as Hnd.
  exact (sublist_NoDup _ _ Hnd Hsub).
Qed.

(** C4, as the code has it. In a turn of the loop with short-circuiting
    enabled, take the point where [failed] is set: the methods [pre] of
    the plan have been called and have left [failed] set, the methods
    [post] are still to be called, and none of their functions clears the
    flag or turns short-circuiting off. Then each method of [post] is
    entered with the flag set and short-circuiting on, and it is among the
    methods executed in the turn exactly when it is under
    [no_requirements], or under [requires] with [valid_state] false and
    data and option conditions that hold: a method with [valid_state] true
    never is. The turn ends with [failed] set, so that what it yields is
    the failure callback's value, or nothing. *)
Theorem C4_short_circuit_in_a_turn (class_body : list (Step State))
    (traced : bool)
    (success_callback fail_callback : option (Workflow State -> State))
    (it0 : Iter) (self0 : Workflow State)
    (res : Chain * list (Method State) * Workflow State)
    (ch : Chain) (w : Workflow State) (pre post : list (Method State))
    (item : Item) (ex : list (Method State)) (c : Workflow State)
    (out : option State) (g : Generator Item State Iter)
    (ex1 : list (Method State)) (w_mid : Workflow State) :
  _get_workflow initialize_state it_next class_body traced it0 self0 = Ok res ->
  plan_of res = pre ++ post ->
  gen_step initialize_state it_next class_body traced success_callback
           fail_callback (gen_in_loop ch (plan_of res) w)
  = (processed item ex c out, g) ->
  executed_of pre (initialize_state item (set_failed false w))
  = Ok (ex1, w_mid) ->
  failed w_mid = true ->
  short_circuit w_mid = true ->
  (forall f s x,
      f ∈ post -> method_step f = Some s ->
      failed x = true -> short_circuit x = true ->
      failed (body s x) = true /\ short_circuit (body s x) = true) ->
  (forall s,
      s ∈ steps_of post ->
      exists d,
        reaches post w_mid s d
        /\ failed d = true /\ short_circuit d = true
        /\ (s ∈ steps_of ex <-> runs_when_failed s d))
  /\ failed c = true
  /\ out = match fail_callback with
           | Some fc => Some (fc c)
           | None => None
           end.
Proof.
  intros Hres Hplan Hstep Hpre Hf Hsc Hkeep.
  pose proof (plan_of_NoDup _ _ _ _ _ Hres) as Hnd.
  rewrite Hplan in Hstep, Hnd. clear Hres Hplan.
  rewrite step_in_loop in Hstep.
  destruct (chain_next it_next ch) as [[item' ch']|]; [|discriminate].
  destruct (executed_of (pre ++ post) _) as [[ex' c']|] eqn:Hex;
    [|discriminate].
  injection Hstep as -> -> -> Hout _.
  destruct (executed_of_app _ _ _ _ _ Hex)
    as (ex1' & ex2 & mid & Hpre' & Hpost & ->).
  rewrite Hpre in Hpre'. injection Hpre' as <- <-.
  set (P := fun x : Workflow State =>
              failed x = true /\ short_circuit x = true).
  assert (HP : forall f s x, f ∈ post -> method_step f = Some s ->
                             P x -> P (body s x)).
  { intros f s x Hfin Hs [Hx1 Hx2]. now apply (Hkeep f s x). }
  assert (Hc : P c).
  { apply (executed_of_invariant P post ex2 w_mid c);
      [now intros x t [? ?] | exact HP | now split | exact Hpost]. }
  rewrite steps_of_app in Hnd. apply NoDup_app in Hnd as (_ & Hdisj & Hnd2).
  split; [|split; [apply Hc|]].
  - intros s Hs.
    destruct (executed_of_reaches_all _ _ _ _ _ Hpost Hs)
      as (d & r & d' & Hreach & Hdec).
    assert (Hd : P d).
    { apply (reaches_invariant P post w_mid s d);
        [now intros x t [? ?] | exact HP | now split | exact Hreach]. }
    exists d. split; [exact Hreach|].
    split; [apply Hd|]. split; [apply Hd|].
    assert (Hin : s ∈ steps_of (ex1 ++ ex2) <-> s ∈ steps_of ex2).
    { rewrite steps_of_app, elem_of_app. split; [|now right].
      intros [Hs1 | Hs2]; [|exact Hs2]. exfalso.
      apply (Hdisj s); [|exact Hs].
      eapply elem_of_sublist; [exact Hs1|].
      apply steps_of_sublist. eapply executed_of_sublist; exact Hpre. }
    rewrite Hin.
    rewrite (executed_of_iff _ _ _ _ _ _ _ _ Hnd2 Hpost Hreach Hdec).
    rewrite decorated_gate in Hdec. unfold runs_when_failed.
    destruct (decorator s) as [|rq].
    + injection Hdec as <- _. now split.
    + unfold do_short_circuit in Hdec.
      destruct Hd as [Hd1 Hd2]. rewrite Hd1, Hd2, andb_true_r in Hdec.
      destruct (valid_state rq); simpl in Hdec.
      * injection Hdec as <- _. split; [discriminate | now intros [? _]].
      * destruct (other_conditions rq d) as [[]|e]; simpl in Hdec;
          [|injection Hdec as <- _|discriminate].
        -- injection Hdec as <- _. now split.
        -- split; [discriminate | now intros [_ ?]].
  - destruct Hc as [Hc _]. rewrite Hc in Hout. now rewrite <- Hout.
Qed.

(** *** Resolution and failure on the first item *)

Lemma option_condition_options (r : requires State) (x y : Workflow State) :
  options x = options y -> option_condition r x = option_condition r y.
Proof. unfold option_condition. now intros ->. Qed.

(** X11. Plan resolution never short-circuits. For a ['wf_'] method under
    [requires] without data condition, in a class of methods with distinct
    names, and user code that changes neither the options nor
    [short_circuit]: when resolution returns, the method is in the plan if
    and only if its option condition holds on the options of the instance,
    whatever its [valid_state], whatever the [short_circuit] of the
    instance, and whether or not methods called before it have set
    [failed] on the first item. *)
Theorem resolution_ignores_failure (class_body : list (Step State))
    (traced : bool) (it : Iter) (self : Workflow State)
    (res : Chain * list (Method State) * Workflow State)
    (s : Step State) (r : requires State) :
  NoDup (map name class_body) ->
  s ∈ class_body ->
  startswith_wf s = true ->
  decorator s = with_requires r ->
  valid_data r = None ->
  (forall item x,
      options (initialize_state item x) = options x
      /\ (short_circuit x = false ->
          short_circuit (initialize_state item x) = false)) ->
  (forall u x,
      u ∈ class_body ->
      options (body u x) = options x
      /\ (short_circuit x = false -> short_circuit (body u x) = false)) ->
  _get_workflow initialize_state it_next class_body traced it self = Ok res ->
  s ∈ steps_of (plan_of res) <-> option_condition r self = Ok true.
Proof.
  intros Hnd Hs Hwf Hdec Hvd Hinit Hbody. unfold _get_workflow.
  destruct (it_next it) as [[peek it']|]; [|discriminate].
  destruct (executed_of _ _) as [[ex self']|] eqn:Hex; simpl; [|discriminate].
  intros [= <-]. unfold plan_of. simpl.
  assert (Hplan : s ∈ steps_of (if debug self'
                                then setup_debug_trace_method :: ex else ex)
                  <-> s ∈ steps_of ex) by now destruct (debug self').
  rewrite Hplan. clear Hplan.
  assert (Hall : s ∈ steps_of (_all_wf_methods class_body traced)).
  { apply steps_of_elem_of. exists (getattr_wf traced s).
    split; [now apply _all_wf_methods_has | apply getattr_wf_step]. }
  destruct (executed_of_reaches_all _ _ _ _ _ Hex Hall)
    as (d & r0 & d' & Hreach & Hd).
  rewrite (executed_of_iff _ _ _ _ _ _ _ _
             (_all_wf_methods_NoDup class_body traced) Hex Hreach Hd).
  set (P := fun x : Workflow State =>
              options x = options self /\ short_circuit x = false).
  assert (HPd : P d).
  { apply (reaches_invariant P _ _ s d) in Hreach; [exact Hreach | | |].
    - now intros x t [? ?].
    - intros f u x Hf Hu [Ho Hsc].
      destruct (_all_wf_methods_startswith _ _ _ _ Hf Hu) as [Hin _].
      destruct (Hbody u x Hin) as [Ho' Hsc']. split; [congruence | auto].
    - destruct (Hinit peek (set_short_circuit false self)) as [Ho Hsc].
      split; [exact Ho | now apply Hsc]. }
  destruct HPd as [Ho Hsc].
  rewrite decorated_gate, Hdec in Hd.
  unfold do_short_circuit in Hd. rewrite Hsc in Hd.
  rewrite andb_false_r, andb_false_r in Hd.
  unfold other_conditions in Hd. rewrite Hvd in Hd.
  rewrite (option_condition_options r d self Ho) in Hd.
  destruct (option_condition r self) as [[]|e]; simpl in Hd;
    [|injection Hd as <- _|discriminate].
  - injection Hd as <- _. now split.
  - split; discriminate.
Qed.

End TurnsOfARun.

(** *** The further properties on the sample workflows *)

Lemma MyWorkflow_names_NoDup : NoDup (map name MyWorkflow.class_body).
Proof. apply (bool_decide_unpack _). vm_compute. exact I. Qed.

Lemma MyWorkflow_bodies (P : Step Z -> Prop) :
  P MyWorkflow.wf_mul -> P MyWorkflow.wf_double -> P MyWorkflow.wf_sub ->
  forall s, s ∈ MyWorkflow.class_body -> P s.
Proof.
  intros H1 H2 H3 s Hs.
  apply elem_of_cons in Hs as [->|Hs]; [exact H1|].
  apply elem_of_cons in Hs as [->|Hs]; [exact H2|].
  apply elem_of_cons in Hs as [->|Hs]; [exact H3|].
  now apply elem_of_nil in Hs.
Qed.

Lemma MyWorkflow_ignores_tracing :
  forall s, s ∈ MyWorkflow.class_body -> ignores_tracing (body s).
Proof.
  apply MyWorkflow_bodies; intros d t w; [reflexivity | reflexivity |].
  simpl. now destruct (options w !! "sub_value" ≫= int_value).
Qed.

(** X1 on the docstring workflow. *)
Lemma X1_witness :
  steps_of (_all_wf_methods MyWorkflow.class_body false)
  ≡ₚ List.filter startswith_wf MyWorkflow.class_body.
Proof.
  apply (_all_wf_methods_collects MyWorkflow.class_body false).
  exact MyWorkflow_names_NoDup.
Defined.

(** X2 on the docstring workflow. *)
Lemma X2_witness :
  Forall (fun e =>
            event_executed e `sublist_of` plan_of MyWorkflow.resolved_5
            /\ forall s, s ∈ steps_of (event_executed e) ->
                         s ∈ MyWorkflow.class_body /\ startswith_wf s = true)
         (events MyWorkflow.initialize_state list_next MyWorkflow.class_body
                 false None None 4 (__call__ [3; 4] MyWorkflow.self_5)).
Proof.
  apply (run_executes_plan_methods_only MyWorkflow.initialize_state list_next
           MyWorkflow.class_body false None None [3; 4] MyWorkflow.self_5
           MyWorkflow.resolved_5 4).
  vm_compute; reflexivity.
Defined.

(** X3 on a method that wants a state above 5, the stream being [1, 10]:
    skipped on 1, it does not run on 10 either. *)
Lemma X3_witness :
  (OnData.wf_big ∈ steps_of (plan_of OnData.resolved)
   <-> returned_None = _executed)
  /\ (returned_None = returned_None ->
      Forall (fun e => OnData.wf_big ∉ steps_of (event_executed e))
             (events MyWorkflow.initialize_state list_next OnData.class_body
                     false None None 4 (__call__ [1; 10] OnData.self))).
Proof.
  apply (sample_decides_the_plan MyWorkflow.initialize_state list_next
           OnData.class_body false None None [1; 10] [10] 1 OnData.self
           OnData.resolved OnData.wf_big
           (MyWorkflow.initialize_state 1 (set_short_circuit false OnData.self))
           (MyWorkflow.initialize_state 1 (set_short_circuit false OnData.self))
           returned_None 4).
  - reflexivity.
  - vm_compute; reflexivity.
  - apply (reaches_here (bound_method OnData.wf_big) []). reflexivity.
  - reflexivity.
Defined.

(** The item 10 of that run comes out as it is. *)
Lemma OnData_outputs :
  outputs (events MyWorkflow.initialize_state list_next OnData.class_body
                  false None None 4 (__call__ [1; 10] OnData.self))
  = [1; 10].
Proof. vm_compute; reflexivity. Qed.

(** X5 on the docstring workflow, whose matchers are [anything] and a
    set. *)
Lemma X5_witness :
  Forall (fun e => forall x, e = raised x -> x = StopIteration)
         (events MyWorkflow.initialize_state list_next MyWorkflow.class_body
                 false None None 4 (__call__ [3; 4] MyWorkflow.self_5)).
Proof.
  apply (safe_workflow_never_raises MyWorkflow.initialize_state list_next
           MyWorkflow.class_body None None [3; 4] MyWorkflow.self_5 4).
  apply MyWorkflow_bodies; reflexivity.
Defined.

(** X7 on the docstring workflow, none of whose methods sets [failed]. *)
Lemma X7_witness :
  Forall (fun e =>
            forall item ex c out,
              e = processed item ex c out ->
              failed c = false
              /\ out = Some (callback_or_state None c))
         (events MyWorkflow.initialize_state list_next MyWorkflow.class_body
                 false None (Some Traced.minus_one) 4
                 (__call__ [3; 4] MyWorkflow.self_5)).
Proof.
  apply (failure_comes_from_methods_only MyWorkflow.initialize_state list_next
           MyWorkflow.class_body false None (Some Traced.minus_one) [3; 4]
           MyWorkflow.self_5 4).
  - intros item x Hx. exact Hx.
  - intros s x Hs. revert s Hs x.
    apply (MyWorkflow_bodies
             (fun s => forall x, failed x = false -> failed (body s x) = false));
      intros x Hx; [exact Hx | exact Hx |].
    simpl. now destruct (options x !! "sub_value" ≫= int_value).
Defined.

(** X8 on the docstring workflow after both items of [3, 4]. *)
Lemma X8_witness :
  exists res c self',
    _get_workflow MyWorkflow.initialize_state list_next MyWorkflow.class_body
                  false [3; 4] MyWorkflow.self_5 = Ok res
    /\ gen_after MyWorkflow.initialize_state list_next MyWorkflow.class_body
                 false None None 3 (__call__ [3; 4] MyWorkflow.self_5)
       = gen_in_loop c (plan_of res) self'
    /\ exists it_n, c = ([], it_n) /\ drop_items list_next 2 [3; 4] = Some it_n.
Proof.
  apply (run_reads_on_demand MyWorkflow.initialize_state list_next
           MyWorkflow.class_body false None None [3; 4] [4] 3
           MyWorkflow.self_5 2).
  - reflexivity.
  - vm_compute. repeat constructor.
Defined.



(** The plan of the failing workflow keeps [wf_gated], which no turn will
    run. *)
Lemma Failing_plan_and_outputs :
  match _get_workflow MyWorkflow.initialize_state list_next Failing.class_body
                      false [7] Failing.self with
  | Ok res =>
      steps_of (plan_of res)
      = [Failing.wf_fail; Failing.wf_gated; Failing.wf_always]
  | Raise _ => False
  end
  /\ map event_executed
         (events MyWorkflow.initialize_state list_next Failing.class_body
                 false None None 2 (__call__ [7] Failing.self))
     = [[]; [bound_method Failing.wf_fail; bound_method Failing.wf_always]].
Proof. split; vm_compute; reflexivity. Qed.

(** X12 on [@requires(option='opt', values=not_none)] with
    [options={'opt': None}]. *)
Lemma X12_witness :
  exists e,
    e <> StopIteration
    /\ events MyWorkflow.initialize_state list_next NotNoneOnNone.class_body
              false None None 3 (__call__ [3; 4] NotNoneOnNone.self)
       = [raised e].
Proof.
  apply (raising_requirement_aborts_run MyWorkflow.initialize_state list_next
           NotNoneOnNone.class_body false None None [3; 4] [4] 3
           NotNoneOnNone.self OnOption.wf_not_none
           (requires_init true (Some "opt") arg_not_none None) TypeError 2).
  - reflexivity.
  - apply (bool_decide_unpack _). vm_compute. exact I.
  - apply list_elem_of_here.
  - reflexivity.
  - reflexivity.
  - reflexivity.
  - reflexivity.
  - intros item x. split; [reflexivity | intros Hx; exact Hx].
  - intros u x Hu. apply list_elem_of_singleton in Hu as ->.
    split; [reflexivity | intros Hx; exact Hx].
Defined.

(** X11 on the failing workflow: [wf_gated] has [valid_state] true and
    follows [wf_fail], on an instance with [short_circuit] on. *)
Lemma X11_witness :
  Failing.wf_gated ∈ steps_of (plan_of FailingRun.resolved)
  <-> option_condition (requires_init true None arg_anything None)
                       Failing.self = Ok true.
Proof.
  apply (resolution_ignores_failure MyWorkflow.initialize_state list_next
           Failing.class_body false [7] Failing.self FailingRun.resolved
           Failing.wf_gated (requires_init true None arg_anything None)).
  - apply (bool_decide_unpack _). vm_compute. exact I.
  - apply list_elem_of_further, list_elem_of_here.
  - reflexivity.
  - reflexivity.
  - reflexivity.
  - intros item x. split; [reflexivity | intros Hx; exact Hx].
  - intros u x Hu.
    apply elem_of_cons in Hu as [->|Hu];
      [|apply elem_of_cons in Hu as [->|Hu];
        [|apply list_elem_of_singleton in Hu as ->]];
      (split; [reflexivity | intros Hx; exact Hx]).
  - vm_compute; reflexivity.
Defined.

(** *** The turns of a run on the sample workflows *)



(** C6 on the workflow that fails the items below 5, on the stream
    [[3, 7, 4, 9]]: every item has its turn. *)
Lemma C6_witness :
  exists res,
    _get_workflow MyWorkflow.initialize_state list_next Picky.class_body
                  false [3; 7; 4; 9] Picky.self = Ok res
    /\ forall n,
         items (events MyWorkflow.initialize_state list_next
                       Picky.class_body false None None (S n)
                       (__call__ [3; 7; 4; 9] Picky.self))
         = take_items list_next n [3; 7; 4; 9]
         /\ length (turns MyWorkflow.initialize_state (plan_of res)
                          (self_of res) (take_items list_next n [3; 7; 4; 9]))
            = length (take_items list_next n [3; 7; 4; 9]).
Proof.
  apply (proj2 (C6_outputs_are_the_non_failed_items
                  MyWorkflow.initialize_state list_next Picky.class_body
                  false None [3; 7; 4; 9] [7; 4; 9] 3 Picky.self eq_refl)).
  split.
  { intros s Hs. apply list_elem_of_singleton in Hs as ->. reflexivity. }
  split; [intros Htr; discriminate|].
  split; intros; intros Htr; discriminate.
Defined.

(** That run yields 7 and 9: the turns of 3 and 4 end with [failed] set
    and yield nothing. *)
Lemma Picky_outputs :
  outputs (events MyWorkflow.initialize_state list_next Picky.class_body
                  false None None 6 (__call__ [3; 7; 4; 9] Picky.self))
  = [7; 9]
  /\ map failed
         (finals (events MyWorkflow.initialize_state list_next
                         Picky.class_body false None None 6
                         (__call__ [3; 7; 4; 9] Picky.self)))
     = [true; false; true; false].
Proof. split; vm_compute; reflexivity. Qed.

(** C4 on the failing workflow, in the turn of the item 7, once [wf_fail]
    has run: [wf_gated] is skipped, [wf_always] runs, and the turn yields
    the failure callback's value. *)
Lemma C4_witness :
  (forall s,
      s ∈ steps_of [bound_method Failing.wf_gated;
                    bound_method Failing.wf_always] ->
      exists d,
        reaches [bound_method Failing.wf_gated; bound_method Failing.wf_always]
                Failing.failed_self s d
        /\ failed d = true /\ short_circuit d = true
        /\ (s ∈ steps_of [bound_method Failing.wf_fail;
                          bound_method Failing.wf_always]
            <-> runs_when_failed s d))
  /\ failed FailingRun.final = true
  /\ Some (-1) = Some (Traced.minus_one FailingRun.final).
Proof.
  apply (C4_short_circuit_in_a_turn MyWorkflow.initialize_state list_next
           Failing.class_body false None (Some Traced.minus_one) [7]
           Failing.self FailingRun.resolved ([7], [])
           (self_of FailingRun.resolved)
           [bound_method Failing.wf_fail]
           [bound_method Failing.wf_gated; bound_method Failing.wf_always]
           7 [bound_method Failing.wf_fail; bound_method Failing.wf_always]
           FailingRun.final (Some (-1))
           (gen_in_loop ([], []) (plan_of FailingRun.resolved)
                        FailingRun.final)
           [bound_method Failing.wf_fail] Failing.failed_self).
  - vm_compute; reflexivity.
  - reflexivity.
  - vm_compute; reflexivity.
  - vm_compute; reflexivity.
  - reflexivity.
  - reflexivity.
  - intros f s x Hf Hs Hx1 Hx2.
    apply elem_of_cons in Hf as [->|Hf];
      [|apply list_elem_of_singleton in Hf as ->];
      injection Hs as <-; split; assumption.
Defined.

(** C4, refuted as stated. With short-circuiting enabled, in the turn of
    the item 7: [wf_a_fail] sets [failed], [wf_b_clear] clears it, and
    [wf_c_gated], a later method of the plan under [requires] with
    [valid_state] true, runs: the turn yields 107. *)
Lemma C4_counterexample :
  exists res ex1 w_mid c g,
    _get_workflow MyWorkflow.initialize_state list_next Clearing.class_body
                  false [7] Clearing.self = Ok res
    /\ short_circuit (self_of res) = true
    /\ plan_of res
       = [bound_method Clearing.wf_a_fail]
         ++ [bound_method Clearing.wf_b_clear;
             bound_method Clearing.wf_c_gated]
    /\ executed_of [bound_method Clearing.wf_a_fail]
                   (MyWorkflow.initialize_state 7
                      (set_failed false (self_of res)))
       = Ok (ex1, w_mid)
    /\ failed w_mid = true
    /\ short_circuit w_mid = true
    /\ decorator Clearing.wf_c_gated
       = with_requires (requires_init true None arg_anything None)
    /\ gen_step MyWorkflow.initialize_state list_next Clearing.class_body
                false None None
                (gen_in_loop (stream_of res) (plan_of res) (self_of res))
       = (processed 7 [bound_method Clearing.wf_a_fail;
                       bound_method Clearing.wf_b_clear;
                       bound_method Clearing.wf_c_gated] c (Some 107), g)
    /\ Clearing.wf_c_gated
       ∈ steps_of [bound_method Clearing.wf_a_fail;
                   bound_method Clearing.wf_b_clear;
                   bound_method Clearing.wf_c_gated]
    /\ state c = 107.
Proof.
  do 5 eexists.
  split; [vm_compute; reflexivity|].
  repeat split; try (vm_compute; reflexivity).
  do 2 apply list_elem_of_further. apply list_elem_of_here.
Qed.
